(** * Bootstrap Compiler (b26c): the BAST pipeline and its debug serializer

    A shallow embedding of [Bootstrap Compiler.cpp]: the line splitter, the
    entity line parser, the program block extractor, the import collector,
    the reference builder, and [Compiler::compile] with its debug output.

    Conventions.
    - [std::string] is [string] (a sequence of 8-bit characters).
    - A [size_t] result of a search is [option nat]; [None] is
      [std::string::npos].
    - [int] is a [Z] wrapped to 32 bits where the source narrows into it.
    - A stream is the text that is still unread; a failed extraction is
      [None]. *)

From Stdlib Require Import ZArith List Bool Arith Lia.
From Stdlib Require Import Strings.Ascii Strings.String Numbers.DecimalString.
Import ListNotations.

Open Scope list_scope.
Open Scope string_scope.

(* ================================================================== *)
(** ** Characters and literals *)

Definition LF : ascii := "010"%char.
Definition TAB : ascii := "009"%char.
Definition CR : ascii := "013"%char.
Definition COMMA : ascii := ","%char.
Definition LPAREN : ascii := "("%char.
Definition RPAREN : ascii := ")"%char.

(** The one-character text of a line break. *)
Definition nl : string := String LF "".

(** The literal [" \t\n\r"] of [parse_entity_line]. *)
Definition WHITESPACE : string :=
  String " "%char (String TAB (String LF (String CR ""))).

(* ================================================================== *)
(** ** The part of [std::string] the program uses *)

Module Str.

(** [s.empty()] *)
Definition empty (s : string) : bool :=
  match s with "" => true | String _ _ => false end.

(** [s.front()], for a non-empty [s] *)
Definition front (s : string) : option ascii :=
  match s with "" => None | String c _ => Some c end.

(** [s.back()], for a non-empty [s] *)
Fixpoint back (s : string) : option ascii :=
  match s with
  | "" => None
  | String c "" => Some c
  | String _ s' => back s'
  end.

(** The first [n] characters (all of [s] when it is shorter). *)
Fixpoint take (n : nat) (s : string) : string :=
  match n, s with
  | S n', String c s' => String c (take n' s')
  | _, _ => ""
  end.

(** [s] without its first [n] characters. *)
Fixpoint drop (n : nat) (s : string) : string :=
  match n, s with
  | S n', String _ s' => drop n' s'
  | _, _ => s
  end.

(** [s.substr(pos)] and [s.substr(pos, count)]; [count = None] is the
    default [npos].  The source only calls it with [pos <= s.size()],
    where no [out_of_range] is thrown. *)
Definition substr (s : string) (pos : nat) (count : option nat) : string :=
  match count with
  | None => drop pos s
  | Some n => take n (drop pos s)
  end.

(** [s.erase(pos, count)]: removes [min(count, size - pos)] characters from
    [pos] on; [count = None] is [npos].  Called with [pos <= s.size()]. *)
Definition erase (s : string) (pos : nat) (count : option nat) : string :=
  take pos s ++
  match count with
  | None => ""
  | Some n => drop (pos + n) s
  end.

(** [s.starts_with(p)] *)
Fixpoint starts_with (p s : string) : bool :=
  match p, s with
  | "", _ => true
  | String a p', String b s' => Ascii.eqb a b && starts_with p' s'
  | String _ _, "" => false
  end.

(** [s.find(p)]: the least position at which [p] occurs in [s]. *)
Fixpoint find (p s : string) : option nat :=
  if starts_with p s then Some 0
  else match s with
       | "" => None
       | String _ s' => option_map S (find p s')
       end.

(** Is [c] one of the characters of [set]? *)
Fixpoint mem (c : ascii) (set : string) : bool :=
  match set with
  | "" => false
  | String d set' => Ascii.eqb c d || mem c set'
  end.

(** [s.find_first_not_of(set)] *)
Fixpoint find_first_not_of (set s : string) : option nat :=
  match s with
  | "" => None
  | String c s' =>
      if mem c set then option_map S (find_first_not_of set s') else Some 0
  end.

(** [s.find_last_not_of(set)] *)
Fixpoint find_last_not_of (set s : string) : option nat :=
  match s with
  | "" => None
  | String c s' =>
      match find_last_not_of set s' with
      | Some i => Some (S i)
      | None => if mem c set then None else Some 0
      end
  end.

(** [r + 1] for a search result [r] of type [size_t]: [npos + 1] wraps
    around to [0]. *)
Definition succ_size_t (r : option nat) : nat :=
  match r with
  | None => 0
  | Some i => S i
  end.

End Str.

(* ================================================================== *)
(** ** Vectors *)

(** [v.push_back(x)] *)
Definition push_back {A : Type} (v : list A) (x : A) : list A :=
  (v ++ [x])%list.

(* ================================================================== *)
(** ** Input streams and [std::getline] *)

(** Reads up to the first [delim], which is consumed and not stored, or up
    to the end of the text: the characters read and the text left. *)
Fixpoint read_until (delim : ascii) (s : string) : string * string :=
  match s with
  | "" => ("", "")
  | String c s' =>
      if Ascii.eqb c delim then ("", s')
      else let (tok, rest) := read_until delim s' in (String c tok, rest)
  end.

(** [std::getline(stream, line, delim)] on a stream whose unread text is
    [s].  At the end of the text nothing is extracted and the stream
    fails. *)
Definition getline (delim : ascii) (s : string) : option (string * string) :=
  match s with
  | "" => None
  | String _ _ => Some (read_until delim s)
  end.

(** [while (std::getline(stream, x, delim)) out.push_back(f x)], run for at
    most [fuel] extractions; [None] when the fuel does not reach the end
    of the stream. *)
Fixpoint getline_loop {A : Type} (fuel : nat) (delim : ascii)
    (body : string -> list A -> list A) (s : string) (out : list A)
  : option (list A) :=
  match fuel with
  | O => None
  | S fuel' =>
      match getline delim s with
      | None => Some out
      | Some (x, rest) => getline_loop fuel' delim body rest (body x out)
      end
  end.

(** Every extraction that succeeds consumes a character, so
    [length s + 1] extractions always reach the end of the stream. *)
Definition while_getline {A : Type} (delim : ascii)
    (body : string -> list A -> list A) (s : string) (out : list A) : list A :=
  match getline_loop (S (String.length s)) delim body s out with
  | Some r => r
  | None => out
  end.

(* ================================================================== *)
(** ** Line splitter *)

Definition split_lines (text : string) : list string :=
  while_getline LF (fun line lines => push_back lines line) text [].

(* ================================================================== *)
(** ** Numbers as the program prints them *)

(** Narrowing to the 32-bit [int] (two's complement, as C++20 defines the
    conversion). *)
Definition to_int (z : Z) : Z :=
  ((z + 2147483648) mod 4294967296 - 2147483648)%Z.

(** [std::format("{}", n)] for an [int]. *)
Definition format_int (z : Z) : string :=
  NilZero.string_of_int (Z.to_int z).

(** [std::format("{}", n)] for a [size_t]. *)
Definition format_size_t (n : nat) : string :=
  NilZero.string_of_uint (Nat.to_uint n).

(* ================================================================== *)
(** ** Data model *)

Record Entity : Type := mkEntity {
  command : string;
  args : list string
}.

Record BAST : Type := mkBAST {
  Imports : list string;
  Entities : list Entity;
  References : list string;
  Details : list string;
  Raw : list string
}.

(** A default-constructed [BAST]: every vector is empty. *)
Definition BAST_new : BAST := mkBAST [] [] [] [] [].

Definition set_Imports (v : list string) (b : BAST) : BAST :=
  mkBAST v (Entities b) (References b) (Details b) (Raw b).
Definition set_Entities (v : list Entity) (b : BAST) : BAST :=
  mkBAST (Imports b) v (References b) (Details b) (Raw b).
Definition set_References (v : list string) (b : BAST) : BAST :=
  mkBAST (Imports b) (Entities b) v (Details b) (Raw b).
Definition set_Details (v : list string) (b : BAST) : BAST :=
  mkBAST (Imports b) (Entities b) (References b) v (Raw b).
Definition set_Raw (v : list string) (b : BAST) : BAST :=
  mkBAST (Imports b) (Entities b) (References b) (Details b) v.

(* ================================================================== *)
(** ** Entity line parser *)

(** The test [!rest.empty() && rest.front() == '(' && rest.back() == ')']. *)
Definition paren_wrapped (rest : string) : bool :=
  negb (Str.empty rest)
  && match Str.front rest with Some c => Ascii.eqb c LPAREN | None => false end
  && match Str.back rest with Some c => Ascii.eqb c RPAREN | None => false end.

(** [if (...) rest = rest.substr(1, rest.size() - 2);]
    The unsigned [rest.size() - 2] cannot wrap here: the test fails on a
    text of fewer than two characters. *)
Definition strip_parens (rest : string) : string :=
  if paren_wrapped rest
  then Str.substr rest 1 (Some (String.length rest - 2))
  else rest.

(** The two [erase] calls on a token. *)
Definition trim_token (token : string) : string :=
  let token := Str.erase token 0 (Str.find_first_not_of WHITESPACE token) in
  let token :=
    Str.erase token (Str.succ_size_t (Str.find_last_not_of WHITESPACE token))
              None in
  token.

(** The body of the token loop. *)
Definition push_token (token : string) (args : list string) : list string :=
  let token := trim_token token in
  if negb (Str.empty token) then push_back args token else args.

Definition parse_entity_line (line : string) : Entity :=
  match Str.find "??" line with
  | Some cmd_pos =>
      let command := Str.substr line 0 (Some cmd_pos) in
      let rest := Str.substr line (cmd_pos + 2) None in
      let rest := strip_parens rest in
      mkEntity command (while_getline COMMA push_token rest [])
  | None => mkEntity line []
  end.

(* ================================================================== *)
(** ** Program block extractor *)

Fixpoint parse_entities_loop (lines : list string) (inside_program : bool)
    (entities : list Entity) : list Entity :=
  match lines with
  | [] => entities
  | line :: lines' =>
      if line =? "#start" then parse_entities_loop lines' true entities
      else if line =? "#end" then parse_entities_loop lines' false entities
      else if inside_program && negb (Str.empty line)
      then parse_entities_loop lines' inside_program
             (push_back entities (parse_entity_line line))
      else parse_entities_loop lines' inside_program entities
  end.

Definition parse_entities_structured (lines : list string) : list Entity :=
  parse_entities_loop lines false [].

(* ================================================================== *)
(** ** Import collector *)

(** [std::find(v.begin(), v.end(), x) == v.end()] *)
Definition not_found (v : list string) (x : string) : bool :=
  negb (existsb (String.eqb x) v).

Fixpoint parse_imports (lines : list string) (bast : BAST) : BAST :=
  match lines with
  | [] => bast
  | line :: lines' =>
      if Str.starts_with "#import " line then
        let lib := Str.substr line 8 None in
        if not_found (Imports bast) lib
        then parse_imports lines' (set_Imports (push_back (Imports bast) lib) bast)
        else parse_imports lines' bast
      else parse_imports lines' bast
  end.

(* ================================================================== *)
(** ** Reference builder *)

(** The scan [for (size_t i = 0; i < lines.size(); ++i)], entered at index
    [i] with the lines from [i] on.  [i + 1] is computed in [size_t], where
    it cannot wrap since [i < lines.size()], and is narrowed into the [int]
    variables. *)
Fixpoint references_scan (lines : list string) (i : nat)
    (start_line end_line : Z) : Z * Z :=
  match lines with
  | [] => (start_line, end_line)
  | line :: lines' =>
      let start_line :=
        if line =? "#start" then to_int (Z.of_nat (i + 1)) else start_line in
      let end_line :=
        if line =? "#end" then to_int (Z.of_nat (i + 1)) else end_line in
      references_scan lines' (S i) start_line end_line
  end.

Definition parse_references (lines : list string) (bast : BAST) : BAST :=
  let '(start_line, end_line) := references_scan lines 0 (-1)%Z (-1)%Z in
  let refs := References bast in
  let refs := push_back refs ("start:" ++ format_int start_line ++ ";") in
  let refs := push_back refs ("end:" ++ format_int end_line ++ ";") in
  let refs := push_back refs ("endcode:" ++ format_int end_line ++ ";") in
  let refs := push_back refs "bootstrapver:b26;" in
  let refs := push_back refs "bootstraprqcomp:b26c;" in
  let refs := push_back refs "bootstrapast:b26bast;" in
  set_References refs bast.

(* ================================================================== *)
(** ** The environment of one [compile] call *)

(** What the call reads from outside: the files that can be opened for
    reading, with their content, and the clock in seconds since the epoch. *)
Record World : Type := mkWorld {
  fs_read : string -> option string;
  clock : Z
}.

(** What the call leaves behind: its return value, the text sent to
    [std::cout], and the files written, each with its name and content. *)
Record Outcome : Type := mkOutcome {
  exit_code : Z;
  std_out : string;
  artifacts : list (string * string)
}.

(** [get_time()]: the seconds count narrowed to [int]. *)
Definition get_time (w : World) : Z := to_int (clock w).

(* ================================================================== *)
(** ** Debug serializer

    The output stream is the text written so far; [<<] appends. *)

(** [for (const auto& line : v) debugFile << line << '\n';] *)
Fixpoint write_lines (v : list string) (debugFile : string) : string :=
  match v with
  | [] => debugFile
  | line :: v' => write_lines v' (debugFile ++ line ++ nl)
  end.

(** The loop over [ent.args], entered at index [i] with the arguments from
    [i] on; [size] is [ent.args.size()]. *)
Fixpoint write_args (rest : list string) (i size : nat) (debugFile : string)
  : string :=
  match rest with
  | [] => debugFile
  | a :: rest' =>
      let debugFile := debugFile ++ a in
      let debugFile :=
        if (i + 1 <? size)%nat then debugFile ++ ", " else debugFile in
      write_args rest' (S i) size debugFile
  end.

(** The body of the loop over [BAST26.Entities]. *)
Definition write_entity (ent : Entity) (debugFile : string) : string :=
  let debugFile := debugFile ++ command ent in
  let debugFile :=
    match args ent with
    | [] => debugFile
    | _ :: _ =>
        let debugFile := debugFile ++ " ?? (" in
        let debugFile :=
          write_args (args ent) 0 (List.length (args ent)) debugFile in
        debugFile ++ ")"
    end in
  debugFile ++ ";" ++ nl.

Fixpoint write_entities (v : list Entity) (debugFile : string) : string :=
  match v with
  | [] => debugFile
  | ent :: v' => write_entities v' (write_entity ent debugFile)
  end.

(** Everything [compile] writes to the debug file. *)
Definition write_debug (b : BAST) : string :=
  let debugFile := "" in
  let debugFile := debugFile ++ ";;details" ++ nl in
  let debugFile := write_lines (Details b) debugFile in
  let debugFile := debugFile ++ ";;raw" ++ nl in
  let debugFile := write_lines (Raw b) debugFile in
  let debugFile := debugFile ++ ";;imports" ++ nl in
  let debugFile := write_lines (Imports b) debugFile in
  let debugFile := debugFile ++ ";;entities" ++ nl in
  let debugFile := write_entities (Entities b) debugFile in
  let debugFile := debugFile ++ ";;references" ++ nl in
  write_lines (References b) debugFile.

(* ================================================================== *)
(** ** BAST assembler *)

(** The BAST that [compile] builds from the content of the input file. *)
Definition build_BAST (fileloc : string) (start_time : Z) (content : string)
  : BAST :=
  let filelines := split_lines content in
  let BAST26 := BAST_new in
  let BAST26 := set_Raw filelines BAST26 in
  let BAST26 := parse_imports filelines BAST26 in
  let BAST26 := parse_references filelines BAST26 in
  let BAST26 := set_Entities (parse_entities_structured filelines) BAST26 in
  set_Details
    [ "projectname=" ++ fileloc;
      "compile-start:" ++ format_int start_time;
      "num-entities:" ++ format_size_t (List.length (Entities BAST26)) ]
    BAST26.

(** [Compiler::compile(fileloc, o)].  The two [catch] clauses serve
    exceptions of the runtime (allocation, formatting); nothing in this
    model throws, so they are not reached.  [artifacts] holds the text
    sent to the output stream of [o + ".btspdebug"]: the source does not
    test that stream, so where the file cannot be created the text is
    dropped, no file appears, and the return value is 0 all the same. *)
Definition compile (w : World) (fileloc o : string) : Outcome :=
  match fs_read w fileloc with
  | None =>
      mkOutcome 1 ("b26c=1" ++ nl ++ "file-opened: 0" ++ nl) []
  | Some content =>
      let start_time := get_time w in
      let BAST26 := build_BAST fileloc start_time content in
      mkOutcome 0 "" [(o ++ ".btspdebug", write_debug BAST26)]
  end.

(** A world with one readable file. *)
Definition single_file_world (path content : string) (now : Z) : World :=
  mkWorld (fun p => if p =? path then Some content else None) now.

(* ================================================================== *)
(** ** Command line *)

(** What [main] asks of the file system besides reading: whether a path
    exists and its absolute form.  [None] stands for a call that throws
    [filesystem_error]; [main] catches nothing, so the program then ends
    without returning (what it had printed by then is not kept). *)
Record Host : Type := mkHost {
  host_world : World;
  path_exists : string -> option bool;
  absolute : string -> option string
}.

(** [s.ends_with(suffix)] *)
Definition ends_with (suffix s : string) : bool :=
  (String.length suffix <=? String.length s)%nat
  && (Str.drop (String.length s - String.length suffix) s =? suffix).

(** [os << b] for a [bool], without [boolalpha]. *)
Definition format_bool (b : bool) : string := if b then "1" else "0".

(** [os << std::quoted(s)], which is how a path is printed: between double
    quotes, with a backslash before every double quote and backslash. *)
Fixpoint quoted_body (s : string) : string :=
  match s with
  | EmptyString => EmptyString
  | String c s' =>
      if Ascii.eqb c "034"%char || Ascii.eqb c "092"%char
      then String "092"%char (String c (quoted_body s'))
      else String c (quoted_body s')
  end.

Definition quoted (s : string) : string :=
  String "034"%char (quoted_body s ++ String "034"%char EmptyString).

(** [main(argc, argv)], with [argv] the list of its [argc] arguments.  The
    result is [None] where the program does not return: on a file system
    exception, and for [build] without a path, where [argv[2]] is the null
    pointer that ends [argv] and a path is built from it. *)
Definition main (h : Host) (argv : list string) : option Outcome :=
  let argc := List.length argv in
  if (argc <? 2)%nat then
    Some (mkOutcome 1
            ("b26c expected 2 or more arguments, instead got "
             ++ format_int (Z.of_nat argc) ++ "." ++ nl) [])
  else
    match nth_error argv 1 with
    | None => None
    | Some argv1 =>
        if argv1 =? "build" then
          let build_properties_valid := (argc =? 3)%nat in
          match nth_error argv 2 with
          | None => None
          | Some argv2 =>
              match path_exists h argv2 with
              | None => None
              | Some build_path_valid =>
                  let build_path_suffix_valid := ends_with ".btsp" argv2 in
                  if negb build_properties_valid || negb build_path_valid
                     || negb build_path_suffix_valid
                  then
                    match absolute h argv2 with
                    | None => None
                    | Some abs =>
                        Some (mkOutcome 1
                                ("b26c=1:" ++ nl
                                 ++ "build-properties-valid: "
                                 ++ format_bool build_properties_valid ++ nl
                                 ++ "build-path-valid: "
                                 ++ format_bool build_path_valid
                                 ++ " (" ++ quoted abs ++ ")" ++ nl
                                 ++ "build-path-suffix-valid: "
                                 ++ format_bool build_path_suffix_valid ++ nl)
                                [])
                    end
                  else
                    let r := compile (host_world h) argv2 "main" in
                    Some (mkOutcome 0 (std_out r) (artifacts r))
              end
          end
        else Some (mkOutcome 0 "" [])
    end.

(* ================================================================== *)
(** ** The specification's vocabulary

    The definitions of this section follow the words of the specification,
    not the code; the theorems below compare the two. *)

Module Spec.

(** Splitting on a delimiter: the texts between consecutive delimiters,
    empty ones included. *)
Fixpoint split_on (delim : ascii) (s : string) : list string :=
  match s with
  | "" => [""]
  | String c s' =>
      if Ascii.eqb c delim then "" :: split_on delim s'
      else match split_on delim s' with
           | [] => [String c ""]
           | t :: ts => String c t :: ts
           end
  end.

(** Whitespace: space, tab, newline, carriage return. *)
Definition is_space (c : ascii) : bool :=
  Ascii.eqb c " "%char || Ascii.eqb c TAB || Ascii.eqb c LF || Ascii.eqb c CR.

(** Without its leading whitespace. *)
Fixpoint ltrim (s : string) : string :=
  match s with
  | "" => ""
  | String c s' => if is_space c then ltrim s' else s
  end.

(** Without its trailing whitespace. *)
Fixpoint rtrim (s : string) : string :=
  match s with
  | "" => ""
  | String c s' =>
      match rtrim s' with
      | "" => if is_space c then "" else String c ""
      | t => String c t
      end
  end.

Definition trim (s : string) : string := rtrim (ltrim s).

(** Only whitespace (or nothing at all). *)
Fixpoint all_space (s : string) : bool :=
  match s with
  | "" => true
  | String c s' => is_space c && all_space s'
  end.

(** Split on commas, trim every token, discard the empty ones. *)
Definition arg_tokens (payload : string) : list string :=
  filter (fun t => negb (Str.empty t)) (map trim (split_on COMMA payload)).

(** Does the parenthesis that was opened [depth] levels above the current
    one close on the last character of [s]? *)
Fixpoint closes_at_end (depth : nat) (s : string) : bool :=
  match s with
  | "" => false
  | String c s' =>
      if Ascii.eqb c LPAREN then closes_at_end (S depth) s'
      else if Ascii.eqb c RPAREN then
        match depth with
        | O => Str.empty s'
        | S d => closes_at_end d s'
        end
      else closes_at_end depth s'
  end.

(** Wrapped in a single pair of parentheses spanning the full length: the
    first character opens a parenthesis that the last character closes. *)
Definition wrapped_in_one_pair (s : string) : bool :=
  match s with
  | "" => false
  | String c s' => Ascii.eqb c LPAREN && closes_at_end 0 s'
  end.

(** The parentheses of a text, in order. *)
Fixpoint parens_of (s : string) : string :=
  match s with
  | "" => ""
  | String c s' =>
      if Ascii.eqb c LPAREN || Ascii.eqb c RPAREN
      then String c (parens_of s') else parens_of s'
  end.

(** The texts of a list, one after the other. *)
Definition flatten (l : list string) : string :=
  fold_right String.append "" l.

(** The inside-program flag after the lines [seen]: false initially, set
    by each [#start], cleared by each [#end]. *)
Definition flag_step (flag : bool) (line : string) : bool :=
  if line =? "#start" then true
  else if line =? "#end" then false
  else flag.

Definition inside_flag (seen : list string) : bool :=
  fold_left flag_step seen false.

(** The line [line], met after the lines [seen], becomes an entity. *)
Definition becomes_entity (seen : list string) (line : string) : bool :=
  negb (line =? "") && negb (line =? "#start") && negb (line =? "#end")
  && inside_flag seen.

(** [k] is the 0-based index of the last line equal to [marker]. *)
Definition last_at (marker : string) (lines : list string) (k : nat) : Prop :=
  nth_error lines k = Some marker /\
  forall j, k < j -> nth_error lines j <> Some marker.

(** The six references, for the texts [s] and [e] of the two line
    numbers. *)
Definition reference_list (s e : string) : list string :=
  [ "start:" ++ s ++ ";";
    "end:" ++ e ++ ";";
    "endcode:" ++ e ++ ";";
    "bootstrapver:b26;";
    "bootstraprqcomp:b26c;";
    "bootstrapast:b26bast;" ].

(** A text given by its lines, each ended by a line break. *)
Definition unlines (l : list string) : string :=
  flatten (map (fun line => line ++ nl) l).

(** The serialized form of an entity, without its line break. *)
Definition entity_text (ent : Entity) : string :=
  command ent
  ++ match args ent with
     | [] => ""
     | _ :: _ => " ?? (" ++ String.concat ", " (args ent) ++ ")"
     end
  ++ ";".

End Spec.

(* ================================================================== *)
(** ** Closed forms used in the proofs *)

(** The successive results of [getline] on the text [s]: a text that ends
    in the delimiter, or is empty, has no last empty piece. *)
Fixpoint pieces (delim : ascii) (s : string) : list string :=
  match s with
  | "" => []
  | String c s' =>
      if Ascii.eqb c delim then "" :: pieces delim s'
      else match pieces delim s' with
           | [] => [String c ""]
           | t :: ts => String c t :: ts
           end
  end.

(** The index of the last occurrence of [marker], if any. *)
Fixpoint last_index (marker : string) (lines : list string) : option nat :=
  match lines with
  | [] => None
  | line :: lines' =>
      match last_index marker lines' with
      | Some k => Some (S k)
      | None => if line =? marker then Some 0 else None
      end
  end.

(** Does the text hold a line break? *)
Definition has_LF (s : string) : bool := Str.mem LF s.

(** The identifiers of the import lines, in order, repeats included. *)
Definition import_libs (lines : list string) : list string :=
  map (fun line => Str.substr line 8 None)
      (filter (Str.starts_with "#import ") lines).

(** One step of the import collector, on the identifier [lib]. *)
Definition collect (acc : list string) (lib : string) : list string :=
  if not_found acc lib then push_back acc lib else acc.

(** A list without the later repeats of its elements. *)
Definition first_occurrences (l : list string) : list string :=
  rev (nodup string_dec (rev l)).

(** The lines of the debug file of a BAST. *)
Definition debug_lines (b : BAST) : list string :=
  (";;details" :: Details b
   ++ ";;raw" :: Raw b
   ++ ";;imports" :: Imports b
   ++ ";;entities" :: map Spec.entity_text (Entities b)
   ++ ";;references" :: References b)%list.

(** A text given by its lines, each ended by carriage return and line
    break. *)
Definition crlf_text (l : list string) : string :=
  Spec.flatten (map (fun line => line ++ String CR nl) l).

(* ================================================================== *)
(** * Properties *)

(* ------------------------------------------------------------------ *)
(** ** Strings *)

Section StringFacts.

Lemma append_nil_r (s : string) : s ++ "" = s.
Proof. induction s as [|c s IH]; simpl; [reflexivity | now rewrite IH]. Qed.

Lemma append_assoc (s t u : string) : (s ++ t) ++ u = s ++ t ++ u.
Proof. induction s as [|c s IH]; simpl; [reflexivity | now rewrite IH]. Qed.

Lemma take_app_length (s t : string) : Str.take (String.length s) (s ++ t) = s.
Proof. induction s as [|c s IH]; simpl; [now destruct t | now rewrite IH]. Qed.

Lemma starts_with_app (p s : string) :
  Str.starts_with p s = true -> s = p ++ Str.drop (String.length p) s.
Proof.
  revert s; induction p as [|a p IH]; intros s H; simpl.
  - now destruct s.
  - destruct s as [|b s]; simpl in H; [discriminate|].
    apply andb_true_iff in H as [Hab Hp].
    apply Ascii.eqb_eq in Hab; subst b.
    simpl. f_equal. now apply IH.
Qed.

(** [find] returns a position where the pattern occurs: the text is the
    part before it, the pattern, and the part after it. *)
Lemma find_split (p s : string) (n : nat) :
  Str.find p s = Some n ->
  s = Str.take n s ++ p ++ Str.drop (n + String.length p) s.
Proof.
  revert n; induction s as [|c s IH]; intros n H.
  - simpl in H. destruct (Str.starts_with p "") eqn:Hp; [|discriminate].
    injection H as <-. simpl. now apply starts_with_app in Hp.
  - cbn [Str.find] in H.
    destruct (Str.starts_with p (String c s)) eqn:Hp.
    + injection H as <-. cbn [Str.take plus]. now apply starts_with_app in Hp.
    + destruct (Str.find p s) as [m|] eqn:Hm; [|discriminate].
      injection H as <-. simpl. f_equal. now apply IH.
Qed.

End StringFacts.

(* ------------------------------------------------------------------ *)
(** ** The [getline] loop always reaches the end of its stream *)

Section Getline.

Context {A : Type} (delim : ascii) (body : string -> list A -> list A).

Lemma read_until_pieces (c : ascii) (s : string) :
  pieces delim (String c s) =
  fst (read_until delim (String c s))
  :: pieces delim (snd (read_until delim (String c s))).
Proof.
  revert c; induction s as [|d s IH]; intro c.
  - simpl. destruct (Ascii.eqb c delim); reflexivity.
  - cbn [pieces read_until] in *.
    destruct (Ascii.eqb c delim); [reflexivity|].
    specialize (IH d). cbn [pieces read_until] in IH. rewrite IH.
    destruct (Ascii.eqb d delim); [reflexivity|].
    destruct (read_until delim s) as [tok rest]. reflexivity.
Qed.

Lemma read_until_shorter (c : ascii) (s : string) :
  String.length (snd (read_until delim (String c s))) <= String.length s.
Proof.
  revert c; induction s as [|d s IH]; intro c.
  - simpl. destruct (Ascii.eqb c delim); simpl; lia.
  - cbn [read_until] in *. destruct (Ascii.eqb c delim); [simpl; lia|].
    specialize (IH d). cbn [read_until] in IH.
    destruct (Ascii.eqb d delim); [simpl in *; lia|].
    destruct (read_until delim s) as [tok rest]. simpl in *. lia.
Qed.

(** With more fuel than characters the loop ends by a failed extraction,
    having run its body on every piece in turn. *)
Lemma getline_loop_enough (fuel : nat) (s : string) (out : list A) :
  String.length s < fuel ->
  getline_loop fuel delim body s out =
  Some (fold_left (fun acc x => body x acc) (pieces delim s) out).
Proof.
  revert s out; induction fuel as [|fuel IH]; intros s out Hlen; [lia|].
  destruct s as [|c s]; [reflexivity|].
  cbn [getline_loop getline].
  rewrite (read_until_pieces c s).
  pose proof (read_until_shorter c s) as Hs.
  destruct (read_until delim (String c s)) as [x rest].
  cbn [fst snd fold_left] in *.
  apply IH. simpl in Hlen. lia.
Qed.

Lemma while_getline_pieces (s : string) (out : list A) :
  while_getline delim body s out =
  fold_left (fun acc x => body x acc) (pieces delim s) out.
Proof.
  unfold while_getline. rewrite getline_loop_enough by lia. reflexivity.
Qed.

End Getline.

Lemma fold_push_back {A : Type} (l out : list A) :
  fold_left (fun acc x => push_back acc x) l out = (out ++ l)%list.
Proof.
  revert out; induction l as [|x l IH]; intro out; simpl.
  - now rewrite app_nil_r.
  - rewrite IH. unfold push_back. now rewrite <- app_assoc.
Qed.

Lemma split_lines_pieces (text : string) : split_lines text = pieces LF text.
Proof.
  unfold split_lines. rewrite while_getline_pieces. apply fold_push_back.
Qed.

(** The spec's split differs from the pieces of [getline] by at most one
    last empty text. *)
Lemma split_on_pieces (delim : ascii) (s : string) :
  exists tail, Spec.split_on delim s = (pieces delim s ++ tail)%list
               /\ (tail = [] \/ tail = [""]).
Proof.
  induction s as [|c s (tail & IH & Htail)].
  - exists [""]. auto.
  - cbn [Spec.split_on pieces]. destruct (Ascii.eqb c delim).
    + exists tail. rewrite IH. auto.
    + rewrite IH. destruct (pieces delim s) as [|t ts].
      * exists []. destruct Htail as [-> | ->]; auto.
      * exists tail. auto.
Qed.

(* ------------------------------------------------------------------ *)
(** ** Trimming and the token loop *)

Lemma mem_whitespace (c : ascii) : Str.mem c WHITESPACE = Spec.is_space c.
Proof.
  unfold Spec.is_space, WHITESPACE; simpl.
  destruct (Ascii.eqb c " "), (Ascii.eqb c TAB), (Ascii.eqb c LF),
    (Ascii.eqb c CR); reflexivity.
Qed.

Lemma erase_leading (t : string) :
  Str.erase t 0 (Str.find_first_not_of WHITESPACE t) = Spec.ltrim t.
Proof.
  unfold Str.erase. cbn [Str.take].
  replace (Str.take 0 t) with "" by now destruct t.
  cbn [String.append plus].
  induction t as [|c t IH]; [reflexivity|].
  cbn [Str.find_first_not_of Spec.ltrim]. rewrite mem_whitespace.
  destruct (Spec.is_space c); [|reflexivity].
  rewrite <- IH.
  destruct (Str.find_first_not_of WHITESPACE t); reflexivity.
Qed.

Lemma erase_trailing (t : string) :
  Str.erase t (Str.succ_size_t (Str.find_last_not_of WHITESPACE t)) None
  = Spec.rtrim t.
Proof.
  unfold Str.erase. rewrite append_nil_r.
  induction t as [|c t IH]; [reflexivity|].
  cbn [Str.find_last_not_of Spec.rtrim]. rewrite <- IH.
  destruct (Str.find_last_not_of WHITESPACE t) as [i|] eqn:Hlast.
  - cbn [Str.succ_size_t Str.take].
    destruct t as [|d t]; [discriminate|]. reflexivity.
  - cbn [Str.succ_size_t]. replace (Str.take 0 t) with "" by now destruct t.
    rewrite mem_whitespace. destruct (Spec.is_space c); reflexivity.
Qed.

(** The two [erase] calls trim a token on both sides. *)
Lemma trim_token_spec (t : string) : trim_token t = Spec.trim t.
Proof.
  unfold trim_token, Spec.trim. now rewrite erase_leading, erase_trailing.
Qed.

Lemma fold_push_token (l out : list string) :
  fold_left (fun acc x => push_token x acc) l out =
  (out ++ filter (fun t => negb (Str.empty t)) (map Spec.trim l))%list.
Proof.
  revert out; induction l as [|x l IH]; intro out; simpl.
  - now rewrite app_nil_r.
  - rewrite IH. unfold push_token, push_back. rewrite trim_token_spec.
    destruct (negb (Str.empty (Spec.trim x))); [|reflexivity].
    now rewrite <- app_assoc.
Qed.

(** The token loop computes the spec's tokens of the text it is given. *)
Lemma token_loop_spec (rest : string) :
  while_getline COMMA push_token rest [] = Spec.arg_tokens rest.
Proof.
  rewrite while_getline_pieces, fold_push_token. unfold Spec.arg_tokens.
  destruct (split_on_pieces COMMA rest) as (tail & -> & Htail).
  rewrite map_app, filter_app.
  destruct Htail as [-> | ->]; simpl; now rewrite ?app_nil_r.
Qed.

(* ------------------------------------------------------------------ *)
(** ** The parenthesis test *)

Lemma length_app (s t : string) :
  String.length (s ++ t) = String.length s + String.length t.
Proof. induction s as [|c s IH]; simpl; [reflexivity | now rewrite IH]. Qed.

Lemma back_snoc (s : string) (c : ascii) : Str.back (s ++ String c "") = Some c.
Proof.
  induction s as [|d s IH]; [reflexivity|].
  cbn [String.append Str.back]. rewrite IH.
  destruct (s ++ String c "") eqn:E; [|reflexivity].
  destruct s; discriminate.
Qed.

Lemma back_inv (s : string) (c : ascii) :
  Str.back s = Some c -> exists s0, s = s0 ++ String c "".
Proof.
  induction s as [|d s IH]; [discriminate|].
  destruct s as [|e s].
  - intros [= ->]. now exists "".
  - intro H. destruct IH as [s0 Hs0]; [exact H|].
    exists (String d s0). simpl. now rewrite <- Hs0.
Qed.

(** The test holds exactly for the texts ["(" ++ inner ++ ")"]: nothing is
    asked of [inner], so the two parentheses need not match each other. *)
Lemma paren_wrapped_iff (rest : string) :
  paren_wrapped rest = true <-> exists inner, rest = "(" ++ inner ++ ")".
Proof.
  unfold paren_wrapped. split.
  - intro H. apply andb_true_iff in H as [H Hback].
    apply andb_true_iff in H as [_ Hfront].
    destruct rest as [|c rest]; [discriminate|]. cbn [Str.front] in Hfront.
    apply Ascii.eqb_eq in Hfront; subst c.
    destruct (Str.back (String LPAREN rest)) as [c|] eqn:Hb; [|discriminate].
    apply Ascii.eqb_eq in Hback; subst c.
    destruct rest as [|d rest]; [discriminate|].
    change (Str.back (String d rest) = Some RPAREN) in Hb.
    apply back_inv in Hb as [inner Hinner].
    exists inner. simpl. now rewrite Hinner.
  - intros [inner ->]. cbn [String.append Str.empty negb Str.front andb].
    change (String "(" (inner ++ ")")) with (("(" ++ inner) ++ String RPAREN "").
    rewrite back_snoc. reflexivity.
Qed.

Lemma strip_parens_wrapped (inner : string) :
  strip_parens ("(" ++ inner ++ ")") = inner.
Proof.
  unfold strip_parens.
  replace (paren_wrapped ("(" ++ inner ++ ")")) with true
    by (symmetry; apply paren_wrapped_iff; now exists inner).
  unfold Str.substr. cbn [String.append Str.drop String.length].
  rewrite length_app. cbn [String.length].
  replace (S (String.length inner + 1) - 2) with (String.length inner) by lia.
  apply take_app_length.
Qed.

Lemma strip_parens_other (rest : string) :
  (forall inner, rest <> "(" ++ inner ++ ")") -> strip_parens rest = rest.
Proof.
  intro H. unfold strip_parens.
  destruct (paren_wrapped rest) eqn:E; [|reflexivity].
  apply paren_wrapped_iff in E as [inner ->]. now destruct (H inner).
Qed.

(* ------------------------------------------------------------------ *)
(** ** What tokenizing keeps *)

Lemma parens_of_app (s t : string) :
  Spec.parens_of (s ++ t) = Spec.parens_of s ++ Spec.parens_of t.
Proof.
  induction s as [|c s IH]; [reflexivity|]. simpl.
  destruct (Ascii.eqb c LPAREN || Ascii.eqb c RPAREN); simpl; now rewrite IH.
Qed.

Lemma space_not_paren (c : ascii) :
  Spec.is_space c = true -> Ascii.eqb c LPAREN || Ascii.eqb c RPAREN = false.
Proof.
  unfold Spec.is_space. intro H.
  repeat (apply orb_true_iff in H as [H|H]);
    apply Ascii.eqb_eq in H; subst c; reflexivity.
Qed.

Lemma parens_of_ltrim (s : string) :
  Spec.parens_of (Spec.ltrim s) = Spec.parens_of s.
Proof.
  induction s as [|c s IH]; [reflexivity|]. cbn [Spec.ltrim].
  destruct (Spec.is_space c) eqn:E; [|reflexivity].
  cbn [Spec.parens_of]. now rewrite (space_not_paren c E).
Qed.

Lemma parens_of_rtrim (s : string) :
  Spec.parens_of (Spec.rtrim s) = Spec.parens_of s.
Proof.
  induction s as [|c s IH]; [reflexivity|]. cbn [Spec.rtrim].
  destruct (Spec.rtrim s) as [|d t] eqn:E.
  - destruct (Spec.is_space c) eqn:Ec.
    + cbn [Spec.parens_of]. rewrite (space_not_paren c Ec). exact IH.
    + cbn [Spec.parens_of] in *. now rewrite <- IH.
  - cbn [Spec.parens_of] in *. now rewrite <- IH.
Qed.

Lemma parens_of_split_on (s : string) :
  Spec.parens_of (Spec.flatten (Spec.split_on COMMA s)) = Spec.parens_of s.
Proof.
  induction s as [|c s IH]; [reflexivity|]. cbn [Spec.split_on].
  destruct (Ascii.eqb c COMMA) eqn:E.
  - apply Ascii.eqb_eq in E; subst c. exact IH.
  - destruct (Spec.split_on COMMA s) as [|t ts]; simpl in *.
    + now rewrite <- IH.
    + now rewrite IH.
Qed.

Lemma parens_of_tokens (s : string) :
  Spec.parens_of (Spec.flatten (Spec.arg_tokens s)) = Spec.parens_of s.
Proof.
  rewrite <- (parens_of_split_on s). unfold Spec.arg_tokens.
  induction (Spec.split_on COMMA s) as [|t ts IH]; [reflexivity|].
  cbn [map filter Spec.flatten fold_right].
  fold (Spec.flatten ts). rewrite parens_of_app, <- IH.
  destruct (Spec.trim t) as [|c t'] eqn:E; cbn [Str.empty negb].
  - rewrite <- (parens_of_ltrim t), <- (parens_of_rtrim (Spec.ltrim t)).
    fold (Spec.trim t). now rewrite E.
  - cbn [Spec.flatten fold_right]. fold (Spec.flatten
      (filter (fun t0 => negb (Str.empty t0)) (map Spec.trim ts))).
    rewrite parens_of_app, <- E. unfold Spec.trim.
    now rewrite parens_of_rtrim, parens_of_ltrim.
Qed.

Lemma all_space_split (s : string) :
  Spec.all_space s = true -> Spec.split_on COMMA s = [s].
Proof.
  induction s as [|c s IH]; [reflexivity|]. cbn [Spec.all_space]. intro H.
  apply andb_true_iff in H as [Hc Hs].
  cbn [Spec.split_on]. rewrite (IH Hs).
  destruct (Ascii.eqb c COMMA) eqn:E; [|reflexivity].
  apply Ascii.eqb_eq in E; subst c. discriminate.
Qed.

Lemma all_space_ltrim (s : string) :
  Spec.all_space s = true -> Spec.ltrim s = "".
Proof.
  induction s as [|c s IH]; [reflexivity|]. cbn [Spec.all_space]. intro H.
  apply andb_true_iff in H as [Hc Hs].
  cbn [Spec.ltrim]. rewrite Hc. now apply IH.
Qed.

Lemma all_space_tokens (s : string) :
  Spec.all_space s = true -> Spec.arg_tokens s = [].
Proof.
  intro H. unfold Spec.arg_tokens, Spec.trim.
  rewrite (all_space_split s H). cbn [map].
  rewrite (all_space_ltrim s H). reflexivity.
Qed.

Lemma all_space_not_wrapped (s : string) :
  Spec.all_space s = true -> strip_parens s = s.
Proof.
  intro H. apply strip_parens_other. intros inner ->.
  cbn in H. discriminate.
Qed.

(** A marker line splits at the position [find] returns. *)
Lemma marker_line_split (line : string) (cmd_pos : nat) :
  Str.find "??" line = Some cmd_pos ->
  line = Str.substr line 0 (Some cmd_pos) ++ "??"
         ++ Str.substr line (cmd_pos + 2) None.
Proof.
  intro H. apply find_split in H. exact H.
Qed.

Lemma marker_line_entity (line : string) (cmd_pos : nat) :
  Str.find "??" line = Some cmd_pos ->
  parse_entity_line line =
  mkEntity (Str.substr line 0 (Some cmd_pos))
           (Spec.arg_tokens (strip_parens (Str.substr line (cmd_pos + 2) None))).
Proof.
  intro H. unfold parse_entity_line. rewrite H.
  now rewrite token_loop_spec.
Qed.

(* ------------------------------------------------------------------ *)
(** ** Entity line parser: arguments *)

(** C5.  For every line that contains the marker [??], split by [find] into
    command, marker and payload: the args are the payload, after the
    optional stripping of its parentheses, split on commas, each token
    trimmed of leading and trailing spaces, tabs, newlines and carriage
    returns, the tokens that are then empty discarded.  A payload of only
    whitespace gives no args; payload [a,,b] gives the args [a] and [b];
    the line [a??( x , y )] gives the command [a] and the args [x] and [y]. *)
Theorem parse_entity_line_tokens :
  (forall line cmd_pos,
      Str.find "??" line = Some cmd_pos ->
      let payload := Str.substr line (cmd_pos + 2) None in
      line = Str.substr line 0 (Some cmd_pos) ++ "??" ++ payload
      /\ command (parse_entity_line line) = Str.substr line 0 (Some cmd_pos)
      /\ args (parse_entity_line line) = Spec.arg_tokens (strip_parens payload)
      /\ (Spec.all_space payload = true -> args (parse_entity_line line) = []))
  /\ args (parse_entity_line "cmd??a,,b") = ["a"; "b"]
  /\ parse_entity_line "a??( x , y )" = mkEntity "a" ["x"; "y"].
Proof.
  split; [|split; reflexivity].
  intros line cmd_pos H payload.
  rewrite (marker_line_entity line cmd_pos H). cbn [command args].
  fold payload. repeat split.
  - now apply marker_line_split.
  - intro Hws. rewrite (all_space_not_wrapped payload Hws).
    now apply all_space_tokens.
Qed.

Lemma parse_entity_line_tokens_witness :
  Str.find "??" "run??( x ,, y z )" = Some 3
  /\ args (parse_entity_line "run??( x ,, y z )") = ["x"; "y z"].
Proof.
  split; [reflexivity|].
  destruct (proj1 parse_entity_line_tokens "run??( x ,, y z )" 3 eq_refl)
    as (_ & _ & Hargs & _).
  rewrite Hargs. reflexivity.
Defined.

(* ------------------------------------------------------------------ *)
(** ** Entity line parser: parentheses *)

(** C4, as the code has it.  For every line that contains the marker [??]:
    the first and the last character of the payload are removed before the
    comma splitting exactly when the payload begins with an opening and
    ends with a closing parenthesis, whether or not the two match each
    other; a payload of any other shape is split as it is.  In both cases
    every parenthesis of the text that is split is found again, in order,
    in the args: the parentheses inside a token are kept. *)
Theorem parse_entity_line_parens (line : string) (cmd_pos : nat) :
  Str.find "??" line = Some cmd_pos ->
  let payload := Str.substr line (cmd_pos + 2) None in
  (forall inner,
      payload = "(" ++ inner ++ ")" ->
      args (parse_entity_line line) = Spec.arg_tokens inner
      /\ Spec.parens_of (Spec.flatten (args (parse_entity_line line)))
         = Spec.parens_of inner)
  /\ ((forall inner, payload <> "(" ++ inner ++ ")") ->
      args (parse_entity_line line) = Spec.arg_tokens payload
      /\ Spec.parens_of (Spec.flatten (args (parse_entity_line line)))
         = Spec.parens_of payload).
Proof.
  intros H payload.
  rewrite (marker_line_entity line cmd_pos H). cbn [args]. fold payload.
  split.
  - intros inner ->. rewrite strip_parens_wrapped.
    split; [reflexivity | apply parens_of_tokens].
  - intro Hshape. rewrite (strip_parens_other payload Hshape).
    split; [reflexivity | apply parens_of_tokens].
Qed.

Lemma parse_entity_line_parens_witness :
  Str.find "??" "f??((a),b)" = Some 1
  /\ args (parse_entity_line "f??((a),b)") = ["(a)"; "b"].
Proof.
  split; [reflexivity|].
  destruct (parse_entity_line_parens "f??((a),b)" 1 eq_refl) as [Hwrapped _].
  destruct (Hwrapped "(a),b" eq_refl) as [Hargs _].
  rewrite Hargs. reflexivity.
Defined.

(** The payload [(a),(b)] is not wrapped in one pair of parentheses, yet
    its first and last character are removed: the args are [a)] and [(b],
    not the tokens [(a)] and [(b)] of the payload as it stands. *)
Lemma parse_entity_line_parens_counterexample :
  Spec.wrapped_in_one_pair "(a),(b)" = false
  /\ strip_parens "(a),(b)" = "a),(b"
  /\ args (parse_entity_line "x??(a),(b)") = ["a)"; "(b"]
  /\ args (parse_entity_line "x??(a),(b)") <> Spec.arg_tokens "(a),(b)".
Proof.
  repeat split. discriminate.
Qed.

(* ------------------------------------------------------------------ *)
(** ** Line splitter *)

Lemma pieces_final_delim (delim : ascii) (s : string) :
  s <> "" -> Str.back s <> Some delim ->
  pieces delim (s ++ String delim "") = pieces delim s.
Proof.
  induction s as [|c s IH]; [congruence|]. intros _ Hback.
  destruct s as [|d s].
  - cbn [String.append pieces]. rewrite Ascii.eqb_refl.
    destruct (Ascii.eqb c delim) eqn:E; [|reflexivity].
    apply Ascii.eqb_eq in E; subst c. now destruct Hback.
  - change ((String c (String d s)) ++ String delim "")
      with (String c (String d s ++ String delim "")).
    cbn [pieces] in *. rewrite IH; [reflexivity | discriminate | exact Hback].
Qed.

(** C10, as the code has it.  For every non-empty text [s] that does not
    end with a line break, [split_lines (s ++ "\n")] is [split_lines s]:
    the line break that ends the last line adds no empty line, and the
    BAST built from the text, its raw section included, is the same with
    and without it. *)
Theorem split_lines_final_newline (s : string) :
  s <> "" -> Str.back s <> Some LF ->
  split_lines (s ++ nl) = split_lines s
  /\ forall fileloc start_time,
       build_BAST fileloc start_time (s ++ nl)
       = build_BAST fileloc start_time s.
Proof.
  intros Hne Hback.
  assert (H : split_lines (s ++ nl) = split_lines s).
  { rewrite !split_lines_pieces. now apply pieces_final_delim. }
  split; [exact H|]. intros fileloc start_time.
  unfold build_BAST. now rewrite H.
Qed.

Lemma split_lines_final_newline_witness :
  split_lines ("#start" ++ nl ++ "foo" ++ nl)
  = split_lines ("#start" ++ nl ++ "foo").
Proof.
  apply (split_lines_final_newline ("#start" ++ nl ++ "foo")); discriminate.
Defined.

(** The empty text does not end with a line break, and has no lines; the
    text of one line break has one line, the empty one. *)
Lemma split_lines_final_newline_counterexample :
  Str.back "" <> Some LF
  /\ split_lines "" = []
  /\ split_lines ("" ++ nl) = [""]
  /\ split_lines ("" ++ nl) <> split_lines "".
Proof.
  repeat split; discriminate.
Qed.

(* ------------------------------------------------------------------ *)
(** ** Program block extractor *)

Section Extractor.

Lemma parse_entities_loop_acc (lines : list string) (flag : bool)
    (acc : list Entity) :
  parse_entities_loop lines flag acc =
  (acc ++ parse_entities_loop lines flag [])%list.
Proof.
  revert flag acc; induction lines as [|line lines IH]; intros flag acc.
  - simpl. now rewrite app_nil_r.
  - cbn [parse_entities_loop].
    destruct (line =? "#start"); [apply IH|].
    destruct (line =? "#end"); [apply IH|].
    destruct (flag && negb (Str.empty line)); [|apply IH].
    rewrite IH. rewrite (IH flag (push_back [] _)).
    unfold push_back. now rewrite <- app_assoc.
Qed.

Lemma parse_entities_loop_app (l1 l2 : list string) (flag : bool)
    (acc : list Entity) :
  parse_entities_loop (l1 ++ l2) flag acc =
  parse_entities_loop l2 (fold_left Spec.flag_step l1 flag)
    (parse_entities_loop l1 flag acc).
Proof.
  revert flag acc; induction l1 as [|line l1 IH]; intros flag acc;
    [reflexivity|].
  cbn [app parse_entities_loop fold_left]. unfold Spec.flag_step at 2.
  destruct (line =? "#start"); [apply IH|].
  destruct (line =? "#end"); [apply IH|].
  destruct (flag && negb (Str.empty line)); apply IH.
Qed.

Lemma empty_eqb (s : string) : Str.empty s = (s =? "").
Proof. now destruct s. Qed.

(** What one line adds to the entities. *)
Lemma parse_entities_loop_one (line : string) (seen : list string) :
  parse_entities_loop [line] (Spec.inside_flag seen) [] =
  if Spec.becomes_entity seen line then [parse_entity_line line] else [].
Proof.
  unfold Spec.becomes_entity. cbn [parse_entities_loop].
  rewrite empty_eqb.
  destruct (line =? "#start") eqn:E1.
  { now rewrite andb_false_r. }
  destruct (line =? "#end") eqn:E2.
  { now rewrite andb_false_r. }
  destruct (line =? ""); destruct (Spec.inside_flag seen); reflexivity.
Qed.

(** With the flag set and no end marker ahead, every line that is neither
    empty nor a start marker is parsed. *)
Lemma parse_entities_loop_open (rest : list string) :
  ~ In "#end" rest ->
  parse_entities_loop rest true [] =
  map parse_entity_line
      (filter (fun l => negb (l =? "") && negb (l =? "#start")) rest).
Proof.
  induction rest as [|line rest IH]; intro Hend; [reflexivity|].
  assert (Hrest : ~ In "#end" rest) by (intro; apply Hend; now right).
  assert (Hline : (line =? "#end") = false).
  { apply String.eqb_neq. intros ->. apply Hend. now left. }
  cbn [parse_entities_loop filter]. rewrite Hline, empty_eqb.
  destruct (line =? "#start"); [rewrite andb_false_r; now apply IH|].
  destruct (line =? ""); cbn [negb andb]; [now apply IH|].
  rewrite parse_entities_loop_acc, (IH Hrest). reflexivity.
Qed.

Lemma inside_flag_snoc (seen : list string) (line : string) :
  Spec.inside_flag (seen ++ [line]) =
  Spec.flag_step (Spec.inside_flag seen) line.
Proof. unfold Spec.inside_flag. now rewrite fold_left_app. Qed.

(** The flag is set exactly after a start marker that no end marker
    follows. *)
Lemma inside_flag_iff (seen : list string) :
  Spec.inside_flag seen = true <->
  exists a b, seen = (a ++ "#start" :: b)%list /\ ~ In "#end" b.
Proof.
  induction seen as [|line seen IH] using rev_ind.
  - split; [discriminate|]. intros (a & b & H & _). now destruct a.
  - rewrite inside_flag_snoc. unfold Spec.flag_step.
    destruct (line =? "#start") eqn:E1.
    { apply String.eqb_eq in E1; subst line. split; [|reflexivity].
      intros _. exists seen, []. auto. }
    apply String.eqb_neq in E1.
    destruct (line =? "#end") eqn:E2.
    { apply String.eqb_eq in E2; subst line. split; [discriminate|].
      intros (a & b & H & Hend). exfalso.
      destruct b as [|x b] using rev_ind.
      - apply app_inj_tail in H as [_ H]. discriminate.
      - change (a ++ "#start" :: b ++ [x])%list
          with (a ++ ("#start" :: b) ++ [x])%list in H.
        rewrite app_assoc in H. apply app_inj_tail in H as [_ <-].
        apply Hend, in_or_app. right. now left. }
    apply String.eqb_neq in E2.
    rewrite IH. split.
    + intros (a & b & -> & Hend). exists a, (b ++ [line])%list. split.
      * now rewrite <- app_assoc.
      * intro Hin. apply in_app_or in Hin as [Hin | [Hin | []]];
          [now apply Hend | congruence].
    + intros (a & b & H & Hend).
      destruct b as [|x b _] using rev_ind.
      * apply app_inj_tail in H as [_ H]. congruence.
      * change (a ++ "#start" :: b ++ [x])%list
          with (a ++ ("#start" :: b) ++ [x])%list in H.
        rewrite app_assoc in H. apply app_inj_tail in H as [-> _].
        exists a, b. split; [reflexivity|].
        intro Hin. apply Hend, in_or_app. now left.
Qed.

(** The entities of a line sequence, line by line. *)
Lemma entities_by_line (seen : list string) (line : string)
    (rest : list string) :
  parse_entities_structured (seen ++ line :: rest) =
  (parse_entities_structured seen
   ++ (if Spec.becomes_entity seen line then [parse_entity_line line] else [])
   ++ parse_entities_loop rest (Spec.inside_flag (seen ++ [line])) [])%list.
Proof.
  unfold parse_entities_structured.
  change (seen ++ line :: rest)%list with (seen ++ [line] ++ rest)%list.
  rewrite parse_entities_loop_app, parse_entities_loop_acc.
  f_equal. fold (Spec.inside_flag seen).
  rewrite parse_entities_loop_app, parse_entities_loop_acc.
  rewrite parse_entities_loop_one. f_equal.
  rewrite inside_flag_snoc. reflexivity.
Qed.

End Extractor.

(** C7.  For every line sequence, taken line by line: nothing gives no
    entities, and the line [line] met after the lines [seen] adds its
    entity, between those of [seen] and those of the lines after it,
    exactly when it is not empty, is neither [#start] nor [#end], and the
    inside-program flag is set after [seen].  The flag, false initially,
    set by each [#start] and cleared by each [#end], is set exactly when
    [seen] holds a [#start] that no [#end] follows: markers and lines
    outside every such span add no entity.  After a [#start] that no
    [#end] follows, every later line that is not empty (and not a [#start]
    marker itself) becomes an entity. *)
Theorem parse_entities_structured_spec :
  parse_entities_structured [] = []
  /\ (forall seen line rest,
         parse_entities_structured (seen ++ line :: rest) =
         (parse_entities_structured seen
          ++ (if Spec.becomes_entity seen line
              then [parse_entity_line line] else [])
          ++ parse_entities_loop rest (Spec.inside_flag (seen ++ [line])) [])
         %list)
  /\ (forall seen line,
         Spec.becomes_entity seen line = true <->
         line <> "" /\ line <> "#start" /\ line <> "#end"
         /\ exists a b, seen = (a ++ "#start" :: b)%list /\ ~ In "#end" b)
  /\ (forall seen rest,
         ~ In "#end" rest ->
         parse_entities_structured (seen ++ "#start" :: rest) =
         (parse_entities_structured seen
          ++ map parse_entity_line
               (filter (fun l => negb (l =? "") && negb (l =? "#start")) rest))
         %list).
Proof.
  split; [reflexivity|]. split; [exact entities_by_line|]. split.
  - intros seen line. unfold Spec.becomes_entity.
    rewrite !andb_true_iff, !negb_true_iff, !String.eqb_neq, inside_flag_iff.
    tauto.
  - intros seen rest Hend. rewrite entities_by_line.
    unfold Spec.becomes_entity. cbn [String.eqb Ascii.eqb negb andb app].
    rewrite inside_flag_snoc. cbn [Spec.flag_step String.eqb Ascii.eqb].
    f_equal. now apply parse_entities_loop_open.
Qed.

Lemma parse_entities_structured_spec_witness :
  parse_entities_structured ["x"; "#start"; "a"; ""; "#start"; "b??c"] =
  [mkEntity "a" []; mkEntity "b" ["c"]].
Proof.
  refine (proj2 (proj2 (proj2 parse_entities_structured_spec))
            ["x"] ["a"; ""; "#start"; "b??c"] _).
  simpl. intros [H | [H | [H | [H | []]]]]; discriminate.
Defined.

(* ------------------------------------------------------------------ *)
(** ** Reference builder *)

Section References.

Lemma to_int_small (z : Z) :
  (- 2147483648 <= z < 2147483648)%Z -> to_int z = z.
Proof. intro H. unfold to_int. rewrite Z.mod_small; lia. Qed.

(** The scan ends with the last index of each marker, counted from one and
    narrowed to [int], or with the value it was entered with. *)
Lemma references_scan_last (lines : list string) (i : nat) (s e : Z) :
  references_scan lines i s e =
  (match last_index "#start" lines with
   | Some k => to_int (Z.of_nat (i + k + 1))
   | None => s
   end,
   match last_index "#end" lines with
   | Some k => to_int (Z.of_nat (i + k + 1))
   | None => e
   end).
Proof.
  revert i s e; induction lines as [|line lines IH]; intros i s e;
    [reflexivity|].
  cbn [references_scan last_index]. rewrite IH.
  f_equal.
  - destruct (last_index "#start" lines) as [k|].
    + do 2 f_equal. lia.
    + destruct (line =? "#start"); [do 2 f_equal; lia | reflexivity].
  - destruct (last_index "#end" lines) as [k|].
    + do 2 f_equal. lia.
    + destruct (line =? "#end"); [do 2 f_equal; lia | reflexivity].
Qed.

Lemma last_index_absent (marker : string) (lines : list string) :
  ~ In marker lines -> last_index marker lines = None.
Proof.
  induction lines as [|line lines IH]; intro H; [reflexivity|].
  cbn [last_index]. rewrite IH by (intro; apply H; now right).
  destruct (line =? marker) eqn:E; [|reflexivity].
  apply String.eqb_eq in E. destruct H. now left.
Qed.

Lemma last_index_last_at (marker : string) (lines : list string) (k : nat) :
  Spec.last_at marker lines k -> last_index marker lines = Some k.
Proof.
  revert k; induction lines as [|line lines IH]; intros k [Hk Hlast].
  - now destruct k.
  - cbn [last_index]. destruct k as [|k].
    + injection Hk as ->.
      rewrite last_index_absent, String.eqb_refl; [reflexivity|].
      intro Hin. apply In_nth_error in Hin as [j Hj].
      apply (Hlast (S j)); [lia | exact Hj].
    + rewrite (IH k); [reflexivity|]. split; [exact Hk|].
      intros j Hj. apply (Hlast (S j)). lia.
Qed.

(** The builder appends the six references and changes nothing else. *)
Lemma parse_references_shape (lines : list string) (bast : BAST) :
  References (parse_references lines bast) =
  (References bast
   ++ Spec.reference_list
        (format_int (fst (references_scan lines 0 (-1) (-1))))
        (format_int (snd (references_scan lines 0 (-1) (-1)))))%list.
Proof.
  unfold parse_references.
  destruct (references_scan lines 0 (-1) (-1)) as [s e].
  cbn [References set_References fst snd]. unfold push_back, Spec.reference_list.
  now rewrite <- !app_assoc.
Qed.

Lemma scan_start_last_at (lines : list string) (k : nat) :
  Spec.last_at "#start" lines k ->
  fst (references_scan lines 0 (-1) (-1)) = to_int (Z.of_nat k + 1).
Proof.
  intro Hk. rewrite references_scan_last. cbn [fst].
  rewrite (last_index_last_at _ _ _ Hk). f_equal. lia.
Qed.

Lemma scan_end_last_at (lines : list string) (k : nat) :
  Spec.last_at "#end" lines k ->
  snd (references_scan lines 0 (-1) (-1)) = to_int (Z.of_nat k + 1).
Proof.
  intro Hk. rewrite references_scan_last. cbn [snd].
  rewrite (last_index_last_at _ _ _ Hk). f_equal. lia.
Qed.

End References.

(** C2, as the code has it.  For every line sequence: if the last line
    equal to [#start] has the 0-based index [k], the start reference holds
    the 1-based index [k + 1] narrowed to the [int] it is kept in; if the
    last line equal to [#end] has the 0-based index [k], the end and
    endcode references hold [k + 1] narrowed to [int].  For an index below
    2^31 the [int] is the index itself; a larger one wraps around.  So
    with [#start] on the lines 2 and 5 and on no later line, the start
    reference is [start:5;]. *)
Theorem parse_references_last_marker (lines : list string) (bast : BAST) :
  (forall k,
      Spec.last_at "#start" lines k ->
      (exists e,
          References (parse_references lines bast) =
          (References bast
           ++ Spec.reference_list (format_int (to_int (Z.of_nat k + 1))) e)
          %list)
      /\ ((Z.of_nat k + 1 < 2147483648)%Z ->
          to_int (Z.of_nat k + 1) = (Z.of_nat k + 1)%Z))
  /\ (forall k,
         Spec.last_at "#end" lines k ->
         (exists s,
             References (parse_references lines bast) =
             (References bast
              ++ Spec.reference_list s (format_int (to_int (Z.of_nat k + 1))))
             %list)
         /\ ((Z.of_nat k + 1 < 2147483648)%Z ->
             to_int (Z.of_nat k + 1) = (Z.of_nat k + 1)%Z))
  /\ (nth_error lines 1 = Some "#start" ->
      nth_error lines 4 = Some "#start" ->
      (forall j, 4 < j -> nth_error lines j <> Some "#start") ->
      exists e,
        References (parse_references lines bast) =
        (References bast ++ Spec.reference_list "5" e)%list).
Proof.
  rewrite parse_references_shape. split; [|split].
  - intros k Hk. split.
    + rewrite (scan_start_last_at lines k Hk). eauto.
    + intro Hrange. apply to_int_small. lia.
  - intros k Hk. split.
    + rewrite (scan_end_last_at lines k Hk). eauto.
    + intro Hrange. apply to_int_small. lia.
  - intros _ H5 Hlast.
    rewrite (scan_start_last_at lines 4 (conj H5 Hlast)). eauto.
Qed.

Lemma parse_references_last_marker_witness :
  exists e,
    References
      (parse_references ["a"; "#start"; "b"; "#end"; "#start"; "c"] BAST_new)
    = Spec.reference_list "5" e.
Proof.
  refine (proj2 (proj2 (parse_references_last_marker
            ["a"; "#start"; "b"; "#end"; "#start"; "c"] BAST_new))
            eq_refl eq_refl _).
  intros j Hj. do 5 (destruct j as [|j]; [lia|]).
  destruct j as [|j]; [discriminate|]. destruct j; discriminate.
Defined.

Lemma last_index_snoc_marker (marker : string) (l : list string) :
  last_index marker (l ++ [marker]) = Some (List.length l).
Proof.
  induction l as [|x l IH].
  - cbn [app last_index]. now rewrite String.eqb_refl.
  - cbn [app last_index List.length]. now rewrite IH.
Qed.

Lemma last_at_snoc_marker (marker : string) (l : list string) :
  Spec.last_at marker (l ++ [marker]) (List.length l).
Proof.
  split.
  - rewrite nth_error_app2, Nat.sub_diag by lia. reflexivity.
  - intros j Hj H.
    assert (Hnone : nth_error (l ++ [marker]) j = None).
    { apply nth_error_None. rewrite List.length_app. cbn [List.length]. lia. }
    congruence.
Qed.

(** With 2^31 - 1 empty lines before it, the one [#start] line is line
    2^31 of the sequence; the start reference is then
    [start:-2147483648;], not [start:2147483648;]. *)
Lemma parse_references_last_marker_counterexample :
  Spec.last_at "#start"
    (repeat "" (Z.to_nat 2147483647) ++ ["#start"])%list
    (Z.to_nat 2147483647)
  /\ format_int (Z.of_nat (Z.to_nat 2147483647) + 1) = "2147483648"
  /\ References
       (parse_references
          (repeat "" (Z.to_nat 2147483647) ++ ["#start"])%list BAST_new)
     = Spec.reference_list "-2147483648" "-1".
Proof.
  remember (Z.to_nat 2147483647) as n eqn:Hn.
  assert (Hz : Z.of_nat n = 2147483647%Z) by (rewrite Hn; apply Z2Nat.id; lia).
  split; [|split].
  - pose proof (last_at_snoc_marker "#start" (repeat "" n)) as H.
    now rewrite repeat_length in H.
  - rewrite Hz. reflexivity.
  - rewrite parse_references_shape, references_scan_last. cbn [fst snd].
    rewrite last_index_snoc_marker, repeat_length.
    rewrite (last_index_absent "#end").
    + replace (Z.of_nat (0 + n + 1)) with (Z.of_nat n + 1)%Z by lia.
      rewrite Hz. reflexivity.
    + intro Hin. apply in_app_or in Hin as [Hin | [Hin | []]].
      * apply repeat_spec in Hin. discriminate.
      * discriminate.
Qed.

Lemma parse_imports_References (lines : list string) (bast : BAST) :
  References (parse_imports lines bast) = References bast.
Proof.
  revert bast; induction lines as [|line lines IH]; intro bast;
    [reflexivity|].
  cbn [parse_imports]. destruct (Str.starts_with "#import " line); [|apply IH].
  destruct (not_found (Imports bast) (Str.substr line 8 None)); [|apply IH].
  now rewrite IH.
Qed.

(** C3.  For every line sequence the reference builder adds exactly six
    strings, in the order start, end, endcode, bootstrapver,
    bootstraprqcomp, bootstrapast, the last three being fixed texts; where
    the sequence has no [#start] line the start reference holds [-1], and
    where it has no [#end] line the end and endcode references hold [-1].
    The references of the BAST that [compile] builds are these six. *)
Theorem parse_references_six :
  (forall lines bast,
      exists s e,
        References (parse_references lines bast) =
        (References bast
         ++ [ ("start:" ++ s ++ ";")%string; ("end:" ++ e ++ ";")%string;
              ("endcode:" ++ e ++ ";")%string;
              "bootstrapver:b26;"; "bootstraprqcomp:b26c;";
              "bootstrapast:b26bast;" ])%list
        /\ (~ In "#start" lines -> s = "-1")
        /\ (~ In "#end" lines -> e = "-1"))
  /\ (forall fileloc start_time content,
         List.length (References (build_BAST fileloc start_time content)) = 6
         /\ exists s e,
             References (build_BAST fileloc start_time content)
             = Spec.reference_list s e
             /\ (~ In "#start" (split_lines content) -> s = "-1")
             /\ (~ In "#end" (split_lines content) -> e = "-1")).
Proof.
  assert (Hgen : forall lines bast,
      exists s e,
        References (parse_references lines bast) =
        (References bast ++ Spec.reference_list s e)%list
        /\ (~ In "#start" lines -> s = "-1")
        /\ (~ In "#end" lines -> e = "-1")).
  { intros lines bast. rewrite parse_references_shape.
    rewrite references_scan_last. cbn [fst snd].
    eexists _, _. split; [reflexivity|]. split; intro H.
    - now rewrite (last_index_absent _ _ H).
    - now rewrite (last_index_absent _ _ H). }
  split; [exact Hgen|].
  intros fileloc start_time content.
  unfold build_BAST. cbn [References set_Details set_Entities].
  destruct (Hgen (split_lines content)
              (parse_imports (split_lines content)
                 (set_Raw (split_lines content) BAST_new)))
    as (s & e & Hrefs & Hs & He).
  rewrite parse_imports_References in Hrefs. cbn in Hrefs.
  rewrite Hrefs. split; [reflexivity|]. eauto.
Qed.

Lemma parse_references_six_witness :
  References (parse_references ["foo"; "bar"] BAST_new) =
  [ "start:-1;"; "end:-1;"; "endcode:-1;";
    "bootstrapver:b26;"; "bootstraprqcomp:b26c;"; "bootstrapast:b26bast;" ].
Proof.
  destruct (proj1 parse_references_six ["foo"; "bar"] BAST_new)
    as (s & e & Hrefs & Hs & He).
  rewrite Hrefs, Hs, He; [reflexivity| |];
    simpl; intros [H | [H | []]]; discriminate.
Defined.

(* ------------------------------------------------------------------ *)
(** ** Debug serializer *)

Section Serializer.

Lemma write_args_concat (rest : list string) (i : nat) (debugFile : string) :
  write_args rest i (i + List.length rest) debugFile =
  debugFile ++ String.concat ", " rest.
Proof.
  revert i debugFile; induction rest as [|a rest IH]; intros i debugFile.
  - simpl. now rewrite append_nil_r.
  - cbn [write_args].
    replace (i + List.length (a :: rest)) with (S i + List.length rest)
      by (simpl; lia).
    rewrite IH. destruct rest as [|b rest].
    + replace (i + 1 <? S i + List.length (@nil string))%nat with false
        by (symmetry; apply Nat.ltb_ge; simpl; lia).
      simpl. now rewrite append_nil_r.
    + replace (i + 1 <? S i + List.length (b :: rest))%nat with true
        by (symmetry; apply Nat.ltb_lt; simpl; lia).
      cbn [String.concat]. now rewrite !append_assoc.
Qed.

Lemma write_entity_text (ent : Entity) (debugFile : string) :
  write_entity ent debugFile = debugFile ++ Spec.entity_text ent ++ nl.
Proof.
  unfold write_entity, Spec.entity_text.
  destruct (args ent) as [|a rest] eqn:E.
  - now rewrite !append_assoc.
  - rewrite (write_args_concat (a :: rest) 0). now rewrite !append_assoc.
Qed.

Lemma write_entities_text (v : list Entity) (debugFile : string) :
  write_entities v debugFile =
  debugFile ++ Spec.unlines (map Spec.entity_text v).
Proof.
  revert debugFile; induction v as [|ent v IH]; intro debugFile.
  - simpl. now rewrite append_nil_r.
  - cbn [write_entities]. rewrite IH, write_entity_text.
    unfold Spec.unlines. cbn [map Spec.flatten fold_right].
    now rewrite !append_assoc.
Qed.

End Serializer.

(** C6.  For every entity the serializer writes one line: the command;
    then, only if there are args, the text [ ?? (], the args joined with a
    comma and a space, and a closing parenthesis; then, in every case, a
    semicolon, and the line break.  The entities section is these lines in
    order.  The entity with command [greet] and args [name], [Bob] is
    written as [greet ?? (name, Bob);], and an entity without args as its
    command followed by the semicolon. *)
Theorem write_entity_format :
  (forall ent debugFile,
      write_entity ent debugFile =
      debugFile
      ++ command ent
      ++ match args ent with
         | [] => ""
         | _ :: _ => " ?? (" ++ String.concat ", " (args ent) ++ ")"
         end
      ++ ";" ++ nl)
  /\ (forall v debugFile,
         write_entities v debugFile =
         debugFile ++ Spec.unlines (map Spec.entity_text v))
  /\ write_entity (mkEntity "greet" ["name"; "Bob"]) ""
     = "greet ?? (name, Bob);" ++ nl
  /\ (forall cmd, write_entity (mkEntity cmd []) "" = cmd ++ ";" ++ nl).
Proof.
  split; [|split; [exact write_entities_text | split; [reflexivity|]]].
  - intros ent debugFile. rewrite write_entity_text.
    unfold Spec.entity_text. now rewrite !append_assoc.
  - intro cmd. rewrite write_entity_text.
    unfold Spec.entity_text. cbn [command args String.append].
    now rewrite append_assoc.
Qed.

(* ------------------------------------------------------------------ *)
(** ** [compile]: the input file cannot be opened *)

(** C8.  If the input path cannot be opened for reading, [compile] prints
    [b26c=1] and [file-opened: 0], each on a line of its own, returns 1 and
    writes no file; nothing else of the world is looked at. *)
Theorem compile_open_failure (w : World) (fileloc o : string) :
  fs_read w fileloc = None ->
  compile w fileloc o =
  mkOutcome 1 ("b26c=1" ++ nl ++ "file-opened: 0" ++ nl) []
  /\ exit_code (compile w fileloc o) = 1%Z
  /\ artifacts (compile w fileloc o) = [].
Proof.
  intro H. unfold compile. rewrite H. repeat split.
Qed.

Lemma compile_open_failure_witness :
  compile (single_file_world "main.btsp" "#start" 0) "other.btsp" "main" =
  mkOutcome 1 ("b26c=1" ++ nl ++ "file-opened: 0" ++ nl) [].
Proof.
  apply (compile_open_failure
           (single_file_world "main.btsp" "#start" 0) "other.btsp" "main").
  reflexivity.
Defined.

(* ------------------------------------------------------------------ *)
(** ** [compile]: a block of one line *)

(** C1, as the code has it.  For the input text of the three lines
    [#start], [foo], [#end], whatever the path and the clock: there is
    exactly one entity, with command [foo] and no args, and the references
    are [start:1;], [end:3;], [endcode:3;] and the three fixed ones: the
    start marker is on line 1.  The debug file of such a run is shown in
    full. *)
Theorem compile_scenario_one :
  (forall fileloc start_time,
      Entities
        (build_BAST fileloc start_time ("#start" ++ nl ++ "foo" ++ nl ++ "#end"))
      = [mkEntity "foo" []]
      /\ References
           (build_BAST fileloc start_time
              ("#start" ++ nl ++ "foo" ++ nl ++ "#end"))
         = [ "start:1;"; "end:3;"; "endcode:3;";
             "bootstrapver:b26;"; "bootstraprqcomp:b26c;";
             "bootstrapast:b26bast;" ])
  /\ compile
       (single_file_world "prog.btsp"
          ("#start" ++ nl ++ "foo" ++ nl ++ "#end") 1700000000)
       "prog.btsp" "main"
     = mkOutcome 0 ""
         [ ("main.btspdebug",
            Spec.unlines
              [ ";;details"; "projectname=prog.btsp";
                "compile-start:1700000000"; "num-entities:1";
                ";;raw"; "#start"; "foo"; "#end";
                ";;imports";
                ";;entities"; "foo;";
                ";;references"; "start:1;"; "end:3;"; "endcode:3;";
                "bootstrapver:b26;"; "bootstraprqcomp:b26c;";
                "bootstrapast:b26bast;" ]) ].
Proof.
  split; [intros fileloc start_time; split|]; vm_compute; reflexivity.
Qed.

(** On that input the start reference is [start:1;]; no reference is
    [start:2;]. *)
Lemma compile_scenario_one_counterexample :
  In "start:1;"
     (References
        (build_BAST "prog.btsp" 0 ("#start" ++ nl ++ "foo" ++ nl ++ "#end")))
  /\ ~ In "start:2;"
       (References
          (build_BAST "prog.btsp" 0 ("#start" ++ nl ++ "foo" ++ nl ++ "#end"))).
Proof.
  split; vm_compute.
  - now left.
  - intros [H | [H | [H | [H | [H | [H | []]]]]]]; discriminate.
Qed.

(* ------------------------------------------------------------------ *)
(** ** Import lines inside a block *)

Section ImportLines.

Lemma not_found_iff (v : list string) (x : string) :
  not_found v x = true <-> ~ In x v.
Proof.
  unfold not_found. rewrite negb_true_iff. split.
  - intros H Hin. apply not_true_iff_false in H. apply H.
    apply existsb_exists. exists x. split; [exact Hin | apply String.eqb_refl].
  - intro H. apply not_true_iff_false. intro Hex.
    apply existsb_exists in Hex as (y & Hy & Heq).
    apply String.eqb_eq in Heq; subst y. now apply H.
Qed.

Lemma parse_imports_keeps (lines : list string) (bast : BAST) (lib : string) :
  In lib (Imports bast) -> In lib (Imports (parse_imports lines bast)).
Proof.
  revert bast; induction lines as [|line lines IH]; intros bast Hin;
    [exact Hin|].
  cbn [parse_imports]. destruct (Str.starts_with "#import " line);
    [|now apply IH].
  destruct (not_found (Imports bast) (Str.substr line 8 None));
    [|now apply IH].
  apply IH. cbn [Imports set_Imports]. unfold push_back.
  apply in_or_app. now left.
Qed.

Lemma parse_imports_collects (seen : list string) (X : string)
    (rest : list string) (bast : BAST) :
  In X (Imports (parse_imports (seen ++ ("#import " ++ X) :: rest) bast)).
Proof.
  revert bast; induction seen as [|line seen IH]; intro bast.
  - cbn [app parse_imports String.append Str.starts_with Ascii.eqb
           Bool.eqb andb Str.substr Str.drop].
    destruct (not_found (Imports bast) X) eqn:E.
    + apply parse_imports_keeps. cbn [Imports set_Imports]. unfold push_back.
      apply in_or_app. right. now left.
    + apply parse_imports_keeps.
      destruct (in_dec string_dec X (Imports bast)) as [Hin | Hout];
        [exact Hin|].
      apply not_found_iff in Hout. congruence.
  - cbn [app parse_imports]. destruct (Str.starts_with "#import " line);
      [|apply IH].
    destruct (not_found (Imports bast) (Str.substr line 8 None)); apply IH.
Qed.

Lemma NoDup_push_back (v : list string) (x : string) :
  NoDup v -> ~ In x v -> NoDup (push_back v x).
Proof.
  unfold push_back. induction v as [|y v IH]; intros Hv Hx; simpl.
  - constructor; [intros [] | constructor].
  - inversion Hv as [|? ? Hy Hv']; subst. constructor.
    + intro Hin. apply in_app_or in Hin as [Hin | [Hin | []]];
        [now apply Hy | subst; apply Hx; now left].
    + apply IH; [exact Hv' | intro; apply Hx; now right].
Qed.

Lemma parse_imports_NoDup (lines : list string) (bast : BAST) :
  NoDup (Imports bast) -> NoDup (Imports (parse_imports lines bast)).
Proof.
  revert bast; induction lines as [|line lines IH]; intros bast Hnd;
    [exact Hnd|].
  cbn [parse_imports]. destruct (Str.starts_with "#import " line);
    [|now apply IH].
  destruct (not_found (Imports bast) (Str.substr line 8 None)) eqn:E;
    [|now apply IH].
  apply IH. cbn [Imports set_Imports].
  apply NoDup_push_back; [exact Hnd | now apply not_found_iff].
Qed.

(** An import line is not empty and is no marker. *)
Lemma import_line_becomes_entity (seen : list string) (X : string) :
  Spec.becomes_entity seen ("#import " ++ X) = Spec.inside_flag seen.
Proof. reflexivity. Qed.

Lemma import_line_flag (flag : bool) (X : string) :
  Spec.flag_step flag ("#import " ++ X) = flag.
Proof. reflexivity. Qed.

(** The marker of an import line, if any, is in its identifier. *)
Lemma import_line_find (X : string) :
  Str.find "??" ("#import " ++ X) = option_map (plus 8) (Str.find "??" X).
Proof.
  cbn [String.append Str.find Str.starts_with Ascii.eqb Bool.eqb andb].
  destruct (Str.find "??" X); reflexivity.
Qed.

End ImportLines.

(** C9, as the code has it.  A line [#import X] met while the
    inside-program flag is set is collected both as the import [X], which
    the import list then holds exactly once, and as an entity: the one the
    entity line parser gives for the full line, placed between the
    entities of the lines before and after it.  Where [X] does not contain
    the marker [??], that entity has the full line as its command and no
    args. *)
Theorem import_line_inside_block (seen : list string) (X : string)
    (rest : list string) :
  Spec.inside_flag seen = true ->
  let line := "#import " ++ X in
  let lines := (seen ++ line :: rest)%list in
  In X (Imports (parse_imports lines BAST_new))
  /\ NoDup (Imports (parse_imports lines BAST_new))
  /\ parse_entities_structured lines =
     (parse_entities_structured seen
      ++ parse_entity_line line :: parse_entities_loop rest true [])%list
  /\ (Str.find "??" X = None -> parse_entity_line line = mkEntity line []).
Proof.
  intros Hflag line lines. repeat split.
  - apply parse_imports_collects.
  - apply parse_imports_NoDup. constructor.
  - unfold lines, line. rewrite entities_by_line.
    rewrite import_line_becomes_entity, inside_flag_snoc, import_line_flag.
    rewrite Hflag. reflexivity.
  - intro Hnone. unfold parse_entity_line, line.
    rewrite import_line_find, Hnone. reflexivity.
Qed.

Lemma import_line_inside_block_witness :
  In "io" (Imports (parse_imports ["#start"; "#import io"; "#end"] BAST_new))
  /\ parse_entities_structured ["#start"; "#import io"; "#end"]
     = [mkEntity "#import io" []].
Proof.
  destruct (import_line_inside_block ["#start"] "io" ["#end"] eq_refl)
    as (Himp & _ & Hent & Hline).
  split; [exact Himp|].
  etransitivity; [exact Hent|]. cbv zeta. rewrite (Hline eq_refl). reflexivity.
Defined.

(** The import line [#import a??b] inside a block gives the import [a??b]
    and the entity with command [#import a] and the arg [b], not the
    entity whose command is the full line. *)
Lemma import_line_inside_block_counterexample :
  Spec.inside_flag ["#start"] = true
  /\ Imports (parse_imports ["#start"; "#import a??b"; "#end"] BAST_new)
     = ["a??b"]
  /\ parse_entities_structured ["#start"; "#import a??b"; "#end"]
     = [mkEntity "#import a" ["b"]]
  /\ ~ In (mkEntity "#import a??b" [])
          (parse_entities_structured ["#start"; "#import a??b"; "#end"]).
Proof.
  repeat split. vm_compute. intros [H | []]. discriminate.
Qed.

(* ================================================================== *)
(** * Further properties *)

(* ------------------------------------------------------------------ *)
(** ** Lines and line breaks *)

Section Lines.

Variable delim : ascii.

Lemma pieces_nil (s : string) : pieces delim s = [] -> s = "".
Proof.
  destruct s as [|c s]; [reflexivity|]. cbn [pieces].
  destruct (Ascii.eqb c delim); [discriminate|].
  destruct (pieces delim s); discriminate.
Qed.

Lemma eqb_flip (a b : ascii) : Ascii.eqb a b = Ascii.eqb b a.
Proof.
  destruct (Ascii.eqb b a) eqn:E.
  - apply Ascii.eqb_eq in E; subst. apply Ascii.eqb_refl.
  - apply Ascii.eqb_neq. apply Ascii.eqb_neq in E. congruence.
Qed.

(** No piece holds the delimiter. *)
Lemma pieces_no_delim (s t : string) :
  In t (pieces delim s) -> Str.mem delim t = false.
Proof.
  revert t; induction s as [|c s IH]; intros t Hin; [destruct Hin|].
  cbn [pieces] in Hin. destruct (Ascii.eqb c delim) eqn:E.
  - destruct Hin as [<- | Hin]; [reflexivity | now apply IH].
  - destruct (pieces delim s) as [|t0 ts].
    + destruct Hin as [<- | []]. cbn [Str.mem]. now rewrite eqb_flip, E.
    + destruct Hin as [<- | Hin].
      * cbn [Str.mem]. rewrite eqb_flip, E. apply IH. now left.
      * apply IH. now right.
Qed.

(** A text without the delimiter, then the delimiter: one piece. *)
Lemma pieces_line (l t : string) :
  Str.mem delim l = false ->
  pieces delim (l ++ String delim t) = l :: pieces delim t.
Proof.
  induction l as [|c l IH]; intro H.
  - cbn [String.append pieces]. now rewrite Ascii.eqb_refl.
  - cbn [Str.mem] in H. apply orb_false_iff in H as [Hc Hl].
    cbn [String.append pieces]. rewrite eqb_flip, Hc, (IH Hl). reflexivity.
Qed.

Lemma pieces_break (s t : string) :
  pieces delim (s ++ String delim t) =
  (pieces delim (s ++ String delim "") ++ pieces delim t)%list.
Proof.
  induction s as [|c s IH].
  - cbn [String.append pieces]. now rewrite Ascii.eqb_refl.
  - cbn [String.append pieces]. destruct (Ascii.eqb c delim).
    + now rewrite IH.
    + rewrite IH. destruct (pieces delim (s ++ String delim "")) eqn:E.
      * apply pieces_nil in E. destruct s; discriminate.
      * reflexivity.
Qed.

Lemma pieces_lines (ls : list string) :
  (forall l, In l ls -> Str.mem delim l = false) ->
  pieces delim (Spec.flatten (map (fun l => l ++ String delim "") ls)) = ls.
Proof.
  induction ls as [|l ls IH]; intro H; [reflexivity|].
  cbn [map Spec.flatten fold_right].
  fold (Spec.flatten (map (fun l0 => l0 ++ String delim "") ls)).
  rewrite append_assoc. cbn [String.append].
  rewrite pieces_line by (apply H; now left).
  f_equal. apply IH. intros l0 Hl0. apply H. now right.
Qed.

(** The pieces, each followed by the delimiter, are the text again, with a
    delimiter added at its end if it had none. *)
Lemma lines_pieces (s : string) :
  Spec.flatten (map (fun l => l ++ String delim "") (pieces delim s)) =
  s ++ match Str.back s with
       | None => ""
       | Some c => if Ascii.eqb c delim then "" else String delim ""
       end.
Proof.
  induction s as [|c s IH]; [reflexivity|].
  cbn [pieces]. destruct (Ascii.eqb c delim) eqn:E.
  - apply Ascii.eqb_eq in E; subst c.
    cbn [map Spec.flatten fold_right String.append].
    fold (Spec.flatten (map (fun l => l ++ String delim "") (pieces delim s))).
    rewrite IH. f_equal. destruct s as [|d s].
    + cbn [Str.back String.append]. now rewrite Ascii.eqb_refl.
    + reflexivity.
  - destruct (pieces delim s) as [|t0 ts] eqn:Ep.
    + apply pieces_nil in Ep; subst s. cbn. now rewrite E.
    + cbn [map Spec.flatten fold_right String.append] in *.
      f_equal. rewrite IH. f_equal. destruct s as [|d s]; [discriminate|].
      reflexivity.
Qed.

End Lines.

Lemma write_lines_unlines (v : list string) (debugFile : string) :
  write_lines v debugFile = debugFile ++ Spec.unlines v.
Proof.
  revert debugFile; induction v as [|line v IH]; intro debugFile.
  - cbn. now rewrite append_nil_r.
  - cbn [write_lines]. rewrite IH. unfold Spec.unlines.
    cbn [map Spec.flatten fold_right]. now rewrite !append_assoc.
Qed.

(** X1.  No line that [split_lines] gives holds a line break. *)
Theorem split_lines_no_line_break (text line : string) :
  In line (split_lines text) -> has_LF line = false.
Proof.
  rewrite split_lines_pieces. apply pieces_no_delim.
Qed.

Lemma split_lines_no_line_break_witness :
  has_LF "b" = false.
Proof.
  apply (split_lines_no_line_break ("a" ++ nl ++ "b") "b").
  right. now left.
Defined.

(** X2.  Lines that hold no line break, written out each with its line
    break, are split into themselves again. *)
Theorem split_lines_unlines (ls : list string) :
  (forall l, In l ls -> has_LF l = false) ->
  split_lines (Spec.unlines ls) = ls
  /\ split_lines (write_lines ls "") = ls.
Proof.
  intro H. rewrite write_lines_unlines. cbn [String.append].
  rewrite split_lines_pieces. unfold Spec.unlines, nl.
  split; now apply pieces_lines.
Qed.

Lemma split_lines_unlines_witness :
  split_lines (Spec.unlines ["#start"; ""; "x??1"]) = ["#start"; ""; "x??1"].
Proof.
  apply (split_lines_unlines ["#start"; ""; "x??1"]).
  intros l [<- | [<- | [<- | []]]]; reflexivity.
Defined.

(** X3.  Writing the lines of a text out again gives the text back, with a
    line break added at the end if the text is not empty and does not end
    with one: the raw section of the debug file is the input, completed by
    a last line break. *)
Theorem write_lines_split_lines (text : string) :
  write_lines (split_lines text) "" =
  text ++ match Str.back text with
          | None => ""
          | Some c => if Ascii.eqb c LF then "" else nl
          end.
Proof.
  rewrite write_lines_unlines, split_lines_pieces. cbn [String.append].
  apply lines_pieces.
Qed.

(** X4.  A line break cuts a text into two texts that are split
    independently. *)
Theorem split_lines_at_break (s t : string) :
  split_lines (s ++ nl ++ t) = (split_lines (s ++ nl) ++ split_lines t)%list.
Proof.
  rewrite !split_lines_pieces. apply pieces_break.
Qed.

(* ------------------------------------------------------------------ *)
(** ** What a text keeps of the characters of another *)

Section Characters.

Variable c : ascii.

Lemma mem_app (s t : string) :
  Str.mem c (s ++ t) = Str.mem c s || Str.mem c t.
Proof.
  induction s as [|d s IH]; [reflexivity|].
  cbn [String.append Str.mem]. now rewrite IH, orb_assoc.
Qed.

Lemma mem_take (n : nat) (s : string) :
  Str.mem c s = false -> Str.mem c (Str.take n s) = false.
Proof.
  revert s; induction n as [|n IH]; intros [|d s] H; try reflexivity.
  cbn [Str.mem Str.take] in *. apply orb_false_iff in H as [Hd Hs].
  now rewrite Hd, (IH s Hs).
Qed.

Lemma mem_drop (n : nat) (s : string) :
  Str.mem c s = false -> Str.mem c (Str.drop n s) = false.
Proof.
  revert s; induction n as [|n IH]; intros [|d s] H; try assumption.
  cbn [Str.mem Str.drop] in *. apply orb_false_iff in H as [_ Hs].
  now apply IH.
Qed.

Lemma mem_substr (s : string) (pos : nat) (count : option nat) :
  Str.mem c s = false -> Str.mem c (Str.substr s pos count) = false.
Proof.
  intro H. destruct count; cbn [Str.substr];
    [apply mem_take|]; now apply mem_drop.
Qed.

Lemma mem_ltrim (s : string) :
  Str.mem c s = false -> Str.mem c (Spec.ltrim s) = false.
Proof.
  induction s as [|d s IH]; intro H; [reflexivity|].
  cbn [Spec.ltrim]. destruct (Spec.is_space d); [|exact H].
  cbn [Str.mem] in H. apply orb_false_iff in H as [_ Hs]. now apply IH.
Qed.

Lemma mem_rtrim (s : string) :
  Str.mem c s = false -> Str.mem c (Spec.rtrim s) = false.
Proof.
  induction s as [|d s IH]; intro H; [reflexivity|].
  cbn [Str.mem] in H. apply orb_false_iff in H as [Hd Hs].
  specialize (IH Hs). cbn [Spec.rtrim].
  destruct (Spec.rtrim s) as [|e t].
  - destruct (Spec.is_space d); [reflexivity|].
    cbn [Str.mem]. now rewrite Hd.
  - cbn [Str.mem] in *. now rewrite Hd, IH.
Qed.

Lemma mem_trim (s : string) :
  Str.mem c s = false -> Str.mem c (Spec.trim s) = false.
Proof. intro H. unfold Spec.trim. now apply mem_rtrim, mem_ltrim. Qed.

Lemma mem_strip_parens (s : string) :
  Str.mem c s = false -> Str.mem c (strip_parens s) = false.
Proof.
  intro H. unfold strip_parens. destruct (paren_wrapped s); [|exact H].
  now apply mem_substr.
Qed.

Lemma mem_pieces (delim : ascii) (s t : string) :
  Str.mem c s = false -> In t (pieces delim s) -> Str.mem c t = false.
Proof.
  revert t; induction s as [|d s IH]; intros t H Hin; [destruct Hin|].
  cbn [Str.mem] in H. apply orb_false_iff in H as [Hd Hs].
  cbn [pieces] in Hin. destruct (Ascii.eqb d delim).
  - destruct Hin as [<- | Hin]; [reflexivity | now apply IH].
  - destruct (pieces delim s) as [|t0 ts].
    + destruct Hin as [<- | []]. cbn [Str.mem]. now rewrite Hd.
    + destruct Hin as [<- | Hin].
      * cbn [Str.mem]. rewrite Hd. apply IH; [exact Hs | now left].
      * apply IH; [exact Hs | now right].
Qed.

End Characters.

(* ------------------------------------------------------------------ *)
(** ** Entity line parser: what every entity satisfies *)

Section EntityLine.

(** The args of a line, in closed form. *)
Lemma args_closed (line : string) :
  args (parse_entity_line line) =
  match Str.find "??" line with
  | Some cmd_pos =>
      filter (fun t => negb (Str.empty t))
        (map Spec.trim
           (pieces COMMA (strip_parens (Str.substr line (cmd_pos + 2) None))))
  | None => []
  end.
Proof.
  unfold parse_entity_line. destruct (Str.find "??" line); [|reflexivity].
  cbn [args]. now rewrite while_getline_pieces, fold_push_token.
Qed.

Lemma ltrim_front (s : string) (d : ascii) (u : string) :
  Spec.ltrim s = String d u -> Spec.is_space d = false.
Proof.
  induction s as [|e s IH]; [discriminate|]. cbn [Spec.ltrim].
  destruct (Spec.is_space e) eqn:E; [exact IH|]. now intros [= <- _].
Qed.

Lemma rtrim_front (s : string) (d : ascii) (u : string) :
  Spec.rtrim s = String d u -> Str.front s = Some d.
Proof.
  destruct s as [|e s]; [discriminate|]. cbn [Spec.rtrim Str.front].
  destruct (Spec.rtrim s); [destruct (Spec.is_space e)|];
    now intros [= <- _].
Qed.

Lemma rtrim_back (s : string) (d : ascii) :
  Str.back (Spec.rtrim s) = Some d -> Spec.is_space d = false.
Proof.
  induction s as [|e s IH]; [discriminate|]. cbn [Spec.rtrim].
  destruct (Spec.rtrim s) as [|f t].
  - destruct (Spec.is_space e) eqn:E; [discriminate|]. now intros [= <-].
  - exact IH.
Qed.

Lemma trim_ends (t : string) :
  Spec.trim t <> "" ->
  (exists d, Str.front (Spec.trim t) = Some d /\ Spec.is_space d = false)
  /\ (exists d, Str.back (Spec.trim t) = Some d /\ Spec.is_space d = false).
Proof.
  intro Hne. unfold Spec.trim in *. split.
  - destruct (Spec.rtrim (Spec.ltrim t)) as [|d u] eqn:E; [congruence|].
    exists d. split; [reflexivity|].
    apply rtrim_front in E.
    destruct (Spec.ltrim t) as [|e v] eqn:El; [discriminate|].
    injection E as ->. now apply ltrim_front in El.
  - destruct (Str.back (Spec.rtrim (Spec.ltrim t))) as [d|] eqn:E.
    + exists d. split; [reflexivity | now apply rtrim_back in E].
    + destruct (Spec.rtrim (Spec.ltrim t)) as [|d u]; [congruence|].
      exfalso. clear Hne. revert d E. induction u as [|e u IH]; intros d E;
        [discriminate | exact (IH e E)].
Qed.

Lemma starts_with_take (p : string) (k : nat) (s : string) :
  Str.starts_with p (Str.take k s) = true -> Str.starts_with p s = true.
Proof.
  revert k s; induction p as [|a p IH]; intros k s H; [now destruct s|].
  destruct k as [|k], s as [|b s]; try discriminate.
  cbn [Str.take Str.starts_with] in *.
  apply andb_true_iff in H as [Hab Hp]. rewrite Hab. exact (IH k s Hp).
Qed.

(** Before the position [find] returns there is no occurrence. *)
Lemma find_take (p s : string) (n : nat) :
  p <> "" -> Str.find p s = Some n -> Str.find p (Str.take n s) = None.
Proof.
  intro Hp. revert n; induction s as [|d s IH]; intros n H.
  - destruct p; [congruence | discriminate].
  - cbn [Str.find] in H. destruct (Str.starts_with p (String d s)) eqn:E.
    + injection H as <-. destruct p; [congruence | reflexivity].
    + destruct (Str.find p s) as [m|] eqn:Em; [|discriminate].
      injection H as <-. cbn [Str.take Str.find].
      rewrite (IH m eq_refl).
      destruct (Str.starts_with p (String d (Str.take m s))) eqn:E';
        [|reflexivity].
      apply (starts_with_take p (S m) (String d s)) in E'. congruence.
Qed.

(** At the position [find] returns the pattern occurs. *)
Lemma find_occurs (p s : string) (n : nat) :
  Str.find p s = Some n ->
  Str.starts_with p (Str.drop n s) = true /\ n <= String.length s.
Proof.
  revert n; induction s as [|d s IH]; intros n H.
  - cbn [Str.find] in H. destruct (Str.starts_with p "") eqn:E;
      [|discriminate]. injection H as <-. now split.
  - cbn [Str.find] in H. destruct (Str.starts_with p (String d s)) eqn:E.
    + injection H as <-. split; [exact E | cbn; lia].
    + destruct (Str.find p s) as [m|]; [|discriminate]. injection H as <-.
      destruct (IH m eq_refl) as [Hs Hm]. split; [exact Hs | cbn; lia].
Qed.

Lemma length_take (n : nat) (s : string) :
  n <= String.length s -> String.length (Str.take n s) = n.
Proof.
  revert s; induction n as [|n IH]; intros [|d s] H; cbn in *;
    try reflexivity; try lia.
  rewrite IH; lia.
Qed.

Lemma drop_app_length (s t : string) :
  Str.drop (String.length s) (s ++ t) = t.
Proof. induction s as [|d s IH]; cbn; [now destruct t | exact IH]. Qed.

End EntityLine.

(** X5.  Every arg of a parsed line is a non-empty text without a comma
    that begins and ends with a character that is not whitespace. *)
Theorem parse_entity_line_args_clean (line a : string) :
  In a (args (parse_entity_line line)) ->
  a <> ""
  /\ Str.mem COMMA a = false
  /\ (exists d, Str.front a = Some d /\ Spec.is_space d = false)
  /\ (exists d, Str.back a = Some d /\ Spec.is_space d = false).
Proof.
  rewrite args_closed. destruct (Str.find "??" line) as [cmd_pos|];
    [|intros []].
  intro Hin. apply filter_In in Hin as [Hin Hne].
  apply in_map_iff in Hin as (t & <- & Ht).
  assert (Hnonempty : Spec.trim t <> "").
  { intro E. rewrite E in Hne. discriminate. }
  split; [exact Hnonempty|]. split.
  - apply mem_trim. exact (pieces_no_delim COMMA _ t Ht).
  - now apply trim_ends.
Qed.

Lemma parse_entity_line_args_clean_witness :
  "y z" <> "" /\ Str.mem COMMA "y z" = false.
Proof.
  destruct (parse_entity_line_args_clean "run??( x ,, y z )" "y z")
    as (H1 & H2 & _).
  - right. now left.
  - now split.
Defined.

(** X6.  The command of a parsed line never holds the marker [??]; parsed
    in its turn, it is its own command and has no args. *)
Theorem parse_entity_line_command_stable (line : string) :
  Str.find "??" (command (parse_entity_line line)) = None
  /\ parse_entity_line (command (parse_entity_line line))
     = mkEntity (command (parse_entity_line line)) [].
Proof.
  assert (H : Str.find "??" (command (parse_entity_line line)) = None).
  { unfold parse_entity_line.
    destruct (Str.find "??" line) as [cmd_pos|] eqn:E; cbn [command].
    - unfold Str.substr. cbn [Str.drop]. apply find_take; [discriminate|].
      exact E.
    - exact E. }
  split; [exact H|]. unfold parse_entity_line at 1. now rewrite H.
Qed.

(** X7.  The line the serializer writes for an entity is not the line the
    entity came from: parsed, it never gives the entity back.  Its command
    comes out shorter or longer than the entity's. *)
Theorem serialized_entity_not_parsed_back (ent : Entity) :
  write_entity ent "" = Spec.entity_text ent ++ nl
  /\ String.length (command (parse_entity_line (Spec.entity_text ent)))
     <> String.length (command ent)
  /\ parse_entity_line (Spec.entity_text ent) <> ent.
Proof.
  split; [apply write_entity_text|].
  assert (Hlen : String.length
                   (command (parse_entity_line (Spec.entity_text ent)))
                 <> String.length (command ent)).
  { assert (Htail : exists d tail,
               Spec.entity_text ent = command ent ++ String d tail
               /\ Ascii.eqb "?" d = false).
    { unfold Spec.entity_text. destruct (args ent).
      - now exists ";"%char, "".
      - eexists " "%char, _. split; [reflexivity | reflexivity]. }
    destruct Htail as (d & tail & Htext & Hd).
    unfold parse_entity_line.
    destruct (Str.find "??" (Spec.entity_text ent)) as [n|] eqn:E;
      cbn [command].
    - destruct (find_occurs _ _ _ E) as [Hocc Hn].
      unfold Str.substr. cbn [Str.drop]. rewrite length_take by exact Hn.
      intros ->. rewrite Htext, drop_app_length in Hocc.
      cbn [Str.starts_with] in Hocc. rewrite Hd in Hocc. discriminate.
    - rewrite Htext, length_app. cbn [String.length]. lia. }
  split; [exact Hlen|]. intro Heq. apply Hlen. now rewrite Heq.
Qed.

(* ------------------------------------------------------------------ *)
(** ** Program block extractor: where entities come from *)

Section EntityOrigin.

Lemma parse_entities_loop_origin (lines : list string) (flag : bool)
    (e : Entity) :
  In e (parse_entities_loop lines flag []) ->
  (flag = true \/ In "#start" lines)
  /\ exists line,
       In line lines /\ line <> "" /\ line <> "#start" /\ line <> "#end"
       /\ e = parse_entity_line line.
Proof.
  revert flag; induction lines as [|line lines IH]; intros flag Hin;
    [destruct Hin|].
  cbn [parse_entities_loop] in Hin.
  destruct (line =? "#start") eqn:E1.
  { apply String.eqb_eq in E1; subst line.
    destruct (IH true Hin) as (_ & l & Hl & Hrest).
    split; [right; now left|]. exists l. split; [now right | exact Hrest]. }
  destruct (line =? "#end") eqn:E2.
  { destruct (IH false Hin) as ([Hf | Hs] & l & Hl & Hrest); [discriminate|].
    split; [right; now right|]. exists l. split; [now right | exact Hrest]. }
  apply String.eqb_neq in E1, E2.
  destruct (flag && negb (Str.empty line)) eqn:E3.
  - apply andb_true_iff in E3 as [-> Hne].
    split; [now left|].
    rewrite parse_entities_loop_acc in Hin.
    apply in_app_or in Hin as [[<- | []] | Hin].
    + exists line. repeat split; try assumption; [now left|].
      intros ->. discriminate.
    + destruct (IH true Hin) as (_ & l & Hl & Hrest).
      exists l. split; [now right | exact Hrest].
  - destruct (IH flag Hin) as (Hflag & l & Hl & Hrest). split.
    + destruct Hflag as [-> | Hs]; [now left | right; now right].
    + exists l. split; [now right | exact Hrest].
Qed.

Lemma back_not_marker (l : string) :
  Str.back l = Some CR -> l <> "#start" /\ l <> "#end".
Proof. intro H. split; intros ->; discriminate. Qed.

Lemma split_lines_of_unlines (ls : list string) :
  (forall l, In l ls -> Str.mem LF l = false) ->
  split_lines (Spec.unlines ls) = ls.
Proof.
  intro H. rewrite split_lines_pieces. now apply pieces_lines.
Qed.

Lemma crlf_text_unlines (ls : list string) :
  crlf_text ls = Spec.unlines (map (fun l => l ++ String CR "") ls).
Proof.
  unfold crlf_text, Spec.unlines. rewrite map_map. f_equal.
  apply map_ext. intro l. now rewrite append_assoc.
Qed.

Lemma parse_imports_Raw (lines : list string) (bast : BAST) :
  Raw (parse_imports lines bast) = Raw bast.
Proof.
  revert bast; induction lines as [|line lines IH]; intro bast;
    [reflexivity|].
  cbn [parse_imports]. destruct (Str.starts_with "#import " line);
    [|apply IH].
  destruct (not_found (Imports bast) (Str.substr line 8 None)); [|apply IH].
  now rewrite IH.
Qed.

Lemma parse_references_Raw (lines : list string) (bast : BAST) :
  Raw (parse_references lines bast) = Raw bast.
Proof.
  unfold parse_references.
  now destruct (references_scan lines 0 (-1) (-1)).
Qed.

End EntityOrigin.

(** X8.  Every entity is the parse of a line of the input that is not
    empty and is no marker, and there is no entity unless some line is
    [#start]. *)
Theorem parse_entities_structured_origin (lines : list string) (e : Entity) :
  In e (parse_entities_structured lines) ->
  In "#start" lines
  /\ exists line,
       In line lines /\ line <> "" /\ line <> "#start" /\ line <> "#end"
       /\ e = parse_entity_line line.
Proof.
  intro Hin. apply parse_entities_loop_origin in Hin as ([Hf | Hs] & Hline).
  - discriminate.
  - now split.
Qed.

Lemma parse_entities_structured_origin_witness :
  In "#start" ["#start"; "a??b"].
Proof.
  apply (parse_entities_structured_origin ["#start"; "a??b"]
           (mkEntity "a" ["b"])).
  now left.
Defined.

(** X9.  For a content, as the input stream delivers it, whose lines end
    with carriage return and line break, the carriage return stays on
    every line, so no line is a marker: the BAST has no entities, and its
    start, end and endcode references are [-1]. *)
Theorem crlf_text_has_no_block (fileloc : string) (start_time : Z)
    (ls : list string) :
  (forall l, In l ls -> has_LF l = false) ->
  Raw (build_BAST fileloc start_time (crlf_text ls))
  = map (fun l => l ++ String CR "") ls
  /\ Entities (build_BAST fileloc start_time (crlf_text ls)) = []
  /\ References (build_BAST fileloc start_time (crlf_text ls))
     = Spec.reference_list "-1" "-1".
Proof.
  intro H.
  assert (Hsplit : split_lines (crlf_text ls)
                   = map (fun l => l ++ String CR "") ls).
  { rewrite crlf_text_unlines. apply split_lines_of_unlines.
    intros l Hl. apply in_map_iff in Hl as (l0 & <- & Hl0).
    rewrite mem_app. unfold has_LF in H. rewrite (H l0 Hl0). reflexivity. }
  assert (Hmark : forall m, m = "#start" \/ m = "#end" ->
                            ~ In m (split_lines (crlf_text ls))).
  { intros m Hm Hin. rewrite Hsplit in Hin.
    apply in_map_iff in Hin as (l0 & Heq & _).
    assert (Hb : Str.back m = Some CR) by (rewrite <- Heq; apply back_snoc).
    destruct (back_not_marker m Hb). destruct Hm; contradiction. }
  unfold build_BAST.
  cbn [Raw Entities References set_Details set_Entities].
  repeat split.
  - rewrite parse_references_Raw, parse_imports_Raw. exact Hsplit.
  - destruct (parse_entities_structured (split_lines (crlf_text ls)))
      as [|e es] eqn:E; [reflexivity|].
    assert (Hin : In e (parse_entities_structured
                          (split_lines (crlf_text ls))))
      by (rewrite E; now left).
    apply parse_entities_loop_origin in Hin as ([Hf | Hs] & _);
      [discriminate|].
    destruct (Hmark "#start" (or_introl eq_refl) Hs).
  - rewrite parse_references_shape, parse_imports_References.
    cbn [References set_Raw BAST_new app].
    rewrite references_scan_last. cbn [fst snd].
    rewrite (last_index_absent "#start"), (last_index_absent "#end");
      [reflexivity | |]; apply Hmark; auto.
Qed.

Lemma crlf_text_has_no_block_witness :
  Entities (build_BAST "w.btsp" 0 (crlf_text ["#start"; "foo"; "#end"])) = [].
Proof.
  refine (proj1 (proj2 (crlf_text_has_no_block "w.btsp" 0
                          ["#start"; "foo"; "#end"] _))).
  intros l [<- | [<- | [<- | []]]]; reflexivity.
Defined.

(* ------------------------------------------------------------------ *)
(** ** Import collector *)

Section Imports.

Lemma parse_imports_fold (lines : list string) (bast : BAST) :
  Imports (parse_imports lines bast) =
  fold_left collect (import_libs lines) (Imports bast).
Proof.
  unfold import_libs.
  revert bast; induction lines as [|line lines IH]; intro bast;
    [reflexivity|].
  cbn [parse_imports filter]. destruct (Str.starts_with "#import " line);
    [|apply IH].
  cbn [map fold_left]. unfold collect at 2.
  destruct (not_found (Imports bast) (Str.substr line 8 None));
    rewrite IH; reflexivity.
Qed.

Lemma nodup_skip (x : string) (l1 l2 : list string) :
  In x l2 ->
  nodup string_dec (l1 ++ x :: l2) = nodup string_dec (l1 ++ l2).
Proof.
  intro Hx. induction l1 as [|y l1 IH]; cbn [app nodup].
  - destruct (in_dec string_dec x l2); [reflexivity | contradiction].
  - rewrite IH.
    destruct (in_dec string_dec y (l1 ++ x :: l2)) as [H1 | H1],
             (in_dec string_dec y (l1 ++ l2)) as [H2 | H2];
      try reflexivity; exfalso.
    + apply H2. apply in_app_or in H1 as [H1 | [<- | H1]];
        apply in_or_app; auto.
    + apply H1. apply in_app_or in H2 as [H2 | H2];
        apply in_or_app; [now left | right; now right].
Qed.

Lemma first_occurrences_fold (l acc : list string) :
  NoDup acc ->
  fold_left collect l acc = first_occurrences (acc ++ l)%list.
Proof.
  unfold first_occurrences.
  revert acc; induction l as [|x l IH]; intros acc Hacc.
  - cbn [fold_left]. rewrite app_nil_r, nodup_fixed_point, rev_involutive;
      [reflexivity|]. now apply NoDup_rev.
  - cbn [fold_left]. unfold collect at 2.
    destruct (not_found acc x) eqn:E.
    + rewrite IH.
      * unfold push_back. now rewrite <- app_assoc.
      * apply NoDup_push_back; [exact Hacc | now apply not_found_iff].
    + rewrite (IH acc Hacc). f_equal.
      assert (Hin : In x acc).
      { destruct (in_dec string_dec x acc) as [Hin | Hout]; [exact Hin|].
        apply not_found_iff in Hout. congruence. }
      rewrite !rev_app_distr. cbn [rev]. rewrite <- app_assoc. cbn [app].
      symmetry. apply nodup_skip. now apply in_rev in Hin.
Qed.

Lemma import_libs_In (lines : list string) (X : string) :
  In X (import_libs lines) <-> In ("#import " ++ X) lines.
Proof.
  unfold import_libs. rewrite in_map_iff. split.
  - intros (line & <- & Hline). apply filter_In in Hline as [Hin Hpre].
    apply starts_with_app in Hpre. cbn [Str.substr].
    change (String.length "#import ") with 8 in Hpre.
    now rewrite <- Hpre.
  - intro Hin. exists ("#import " ++ X). split; [reflexivity|].
    apply filter_In. split; [exact Hin | reflexivity].
Qed.

Lemma parse_imports_set_References (lines : list string) (bast : BAST)
    (refs : list string) :
  parse_imports lines (set_References refs bast)
  = set_References refs (parse_imports lines bast).
Proof.
  revert bast; induction lines as [|line lines IH]; intro bast;
    [reflexivity|].
  cbn [parse_imports]. destruct (Str.starts_with "#import " line);
    [|apply IH].
  cbn [Imports set_References].
  destruct (not_found (Imports bast) (Str.substr line 8 None)); [|apply IH].
  rewrite <- IH. reflexivity.
Qed.

End Imports.

(** X10.  Started on a list without repeats, the import collector leaves
    that list followed by the identifiers of the import lines, each kept
    where it first occurs: later repeats are dropped, the order is that of
    first occurrence. *)
Theorem parse_imports_first_occurrences (lines : list string) (bast : BAST) :
  NoDup (Imports bast) ->
  Imports (parse_imports lines bast)
  = first_occurrences (Imports bast ++ import_libs lines)%list.
Proof.
  intro H. rewrite parse_imports_fold. now apply first_occurrences_fold.
Qed.

Lemma parse_imports_first_occurrences_witness :
  Imports (parse_imports ["#import b"; "x"; "#import a"; "#import b"] BAST_new)
  = ["b"; "a"].
Proof.
  refine (eq_trans
            (parse_imports_first_occurrences
               ["#import b"; "x"; "#import a"; "#import b"] BAST_new _) _).
  - constructor.
  - reflexivity.
Defined.

(** X11.  An identifier is among the imports of a fresh BAST exactly when
    some line, inside a block or not, is [#import ] followed by that
    identifier, which may be any text, the empty one included; and no
    identifier is there twice. *)
Theorem parse_imports_membership (lines : list string) :
  (forall X,
      In X (Imports (parse_imports lines BAST_new))
      <-> In ("#import " ++ X) lines)
  /\ NoDup (Imports (parse_imports lines BAST_new)).
Proof.
  split.
  - intro X. rewrite parse_imports_fold, first_occurrences_fold
      by constructor.
    unfold first_occurrences. cbn [Imports BAST_new app].
    rewrite <- in_rev, nodup_In, <- in_rev. apply import_libs_In.
  - apply parse_imports_NoDup. constructor.
Qed.

(** X12.  The import collector and the reference builder do not interfere:
    run in either order they give the same BAST, the collector leaves the
    references alone, and the builder leaves the imports alone. *)
Theorem parse_imports_parse_references_commute (lines lines' : list string)
    (bast : BAST) :
  parse_imports lines (parse_references lines' bast)
  = parse_references lines' (parse_imports lines bast)
  /\ References (parse_imports lines bast) = References bast
  /\ Imports (parse_references lines' bast) = Imports bast.
Proof.
  repeat split.
  - unfold parse_references.
    destruct (references_scan lines' 0 (-1) (-1)) as [s e].
    now rewrite parse_imports_set_References, parse_imports_References.
  - apply parse_imports_References.
  - unfold parse_references.
    now destruct (references_scan lines' 0 (-1) (-1)).
Qed.

(* ------------------------------------------------------------------ *)
(** ** Reference builder: only the markers count *)

Lemma last_index_app_absent (marker : string) (lines tail : list string) :
  ~ In marker tail ->
  last_index marker (lines ++ tail) = last_index marker lines.
Proof.
  intro H. induction lines as [|line lines IH].
  - now apply last_index_absent.
  - cbn [app last_index]. now rewrite IH.
Qed.

(** X13.  Lines that follow the last marker do not count: adding lines
    that are neither [#start] nor [#end] at the end of the sequence leaves
    the result of the reference builder as it was. *)
Theorem parse_references_trailing_lines (lines tail : list string)
    (bast : BAST) :
  ~ In "#start" tail -> ~ In "#end" tail ->
  parse_references (lines ++ tail) bast = parse_references lines bast.
Proof.
  intros Hs He. unfold parse_references.
  rewrite !references_scan_last.
  now rewrite !last_index_app_absent.
Qed.

Lemma parse_references_trailing_lines_witness :
  parse_references (["#start"; "a"; "#end"] ++ ["b"; ""]) BAST_new
  = parse_references ["#start"; "a"; "#end"] BAST_new.
Proof.
  apply (parse_references_trailing_lines ["#start"; "a"; "#end"] ["b"; ""]);
    intros [H | [H | []]]; discriminate.
Defined.

(* ------------------------------------------------------------------ *)
(** ** The clock *)

(** X14.  [get_time] always fits the [int] it is returned in and differs
    from the clock by a multiple of 2^32; it is the clock itself as long
    as the clock is below 2^31 seconds and not negative. *)
Theorem get_time_range (w : World) :
  (- 2147483648 <= get_time w < 2147483648)%Z
  /\ (exists q, get_time w = clock w + q * 4294967296)%Z
  /\ ((0 <= clock w < 2147483648)%Z -> get_time w = clock w).
Proof.
  unfold get_time, to_int. repeat split.
  - pose proof (Z.mod_pos_bound (clock w + 2147483648) 4294967296). lia.
  - pose proof (Z.mod_pos_bound (clock w + 2147483648) 4294967296). lia.
  - exists (- ((clock w + 2147483648) / 4294967296))%Z.
    pose proof (Z.div_mod (clock w + 2147483648) 4294967296). lia.
  - intro H. rewrite Z.mod_small; lia.
Qed.

Lemma get_time_range_witness :
  get_time (single_file_world "a.btsp" "" 1700000000) = 1700000000%Z.
Proof.
  refine (proj2 (proj2 (get_time_range
                          (single_file_world "a.btsp" "" 1700000000))) _).
  cbn. lia.
Defined.

(* ------------------------------------------------------------------ *)
(** ** The debug file, line by line *)

Section DebugFile.

Lemma unlines_app (a b : list string) :
  Spec.unlines (a ++ b) = Spec.unlines a ++ Spec.unlines b.
Proof.
  unfold Spec.unlines, Spec.flatten.
  induction a as [|x a IH]; [reflexivity|].
  cbn [app map fold_right]. now rewrite IH, !append_assoc.
Qed.

Lemma unlines_cons (x : string) (a : list string) :
  Spec.unlines (x :: a) = x ++ nl ++ Spec.unlines a.
Proof. unfold Spec.unlines. cbn. now rewrite append_assoc. Qed.

Lemma write_debug_unlines (b : BAST) :
  write_debug b = Spec.unlines (debug_lines b).
Proof.
  unfold write_debug, debug_lines.
  rewrite !write_lines_unlines, write_entities_text.
  repeat (rewrite ?unlines_cons, ?unlines_app, ?append_assoc;
          cbn [String.append]).
  reflexivity.
Qed.

Lemma digits_no_LF (d : Decimal.uint) :
  Str.mem LF (NilEmpty.string_of_uint d) = false.
Proof. induction d; cbn; auto. Qed.

Lemma format_int_no_LF (z : Z) : Str.mem LF (format_int z) = false.
Proof.
  unfold format_int, NilZero.string_of_int, NilZero.string_of_uint.
  destruct (Z.to_int z) as [d | d]; destruct d; try reflexivity;
    apply (digits_no_LF (_ d)) || apply digits_no_LF.
Qed.

Lemma format_size_t_no_LF (n : nat) : Str.mem LF (format_size_t n) = false.
Proof.
  unfold format_size_t, NilZero.string_of_uint.
  destruct (Nat.to_uint n) as [|d|d|d|d|d|d|d|d|d|d]; try reflexivity;
    apply (digits_no_LF (_ d)).
Qed.

Lemma concat_no_LF (sep : string) (l : list string) :
  Str.mem LF sep = false ->
  (forall a, In a l -> Str.mem LF a = false) ->
  Str.mem LF (String.concat sep l) = false.
Proof.
  intros Hsep. induction l as [|a l IH]; intro H; [reflexivity|].
  cbn [String.concat]. destruct l as [|a' l].
  - apply H. now left.
  - rewrite !mem_app, Hsep, (H a (or_introl eq_refl)). cbn [orb].
    apply IH. intros x Hx. apply H. now right.
Qed.

(** The entity of a line without a line break is written without one. *)
Lemma entity_text_no_LF (line : string) :
  Str.mem LF line = false ->
  Str.mem LF (Spec.entity_text (parse_entity_line line)) = false.
Proof.
  intro H. unfold Spec.entity_text. rewrite !mem_app.
  assert (Hcmd : Str.mem LF (command (parse_entity_line line)) = false).
  { unfold parse_entity_line. destruct (Str.find "??" line); cbn [command];
      [now apply mem_substr | exact H]. }
  assert (Hargs : forall a, In a (args (parse_entity_line line)) ->
                            Str.mem LF a = false).
  { intro a. rewrite args_closed. destruct (Str.find "??" line); [|intros []].
    intro Hin. apply filter_In in Hin as [Hin _].
    apply in_map_iff in Hin as (t & <- & Ht). apply mem_trim.
    eapply mem_pieces; [|exact Ht].
    now apply mem_strip_parens, mem_substr. }
  rewrite Hcmd. cbn [orb].
  destruct (args (parse_entity_line line)) as [|a l] eqn:E; [reflexivity|].
  rewrite !mem_app, concat_no_LF; [reflexivity | reflexivity | exact Hargs].
Qed.

(** No line of the debug file of a built BAST holds a line break, if the
    path holds none. *)
Lemma debug_lines_no_LF (fileloc : string) (start_time : Z) (content l : string) :
  Str.mem LF fileloc = false ->
  In l (debug_lines (build_BAST fileloc start_time content)) ->
  Str.mem LF l = false.
Proof.
  intros Hpath. unfold debug_lines, build_BAST.
  cbn [Details Raw Imports Entities References set_Details set_Entities].
  set (lines := split_lines content).
  assert (Hlines : forall x, In x lines -> Str.mem LF x = false).
  { intros x Hx. unfold lines in Hx. rewrite split_lines_pieces in Hx.
    exact (pieces_no_delim LF _ x Hx). }
  intro Hin.
  repeat (apply in_app_or in Hin as [Hin | Hin] || destruct Hin as [<- | Hin]);
    try reflexivity.
  - now rewrite mem_app, Hpath.
  - now rewrite mem_app, format_int_no_LF.
  - now rewrite mem_app, format_size_t_no_LF.
  - destruct Hin.
  - rewrite parse_references_Raw, parse_imports_Raw in Hin.
    now apply Hlines.
  - assert (Himp : Imports (parse_references lines
                     (parse_imports lines (set_Raw lines BAST_new)))
                   = Imports (parse_imports lines (set_Raw lines BAST_new))).
    { unfold parse_references.
      now destruct (references_scan lines 0 (-1) (-1)). }
    rewrite Himp, parse_imports_fold, first_occurrences_fold in Hin
      by constructor.
    unfold first_occurrences in Hin. cbn [Imports set_Raw BAST_new app] in Hin.
    rewrite <- in_rev, nodup_In, <- in_rev in Hin.
    apply import_libs_In in Hin. apply Hlines in Hin.
    rewrite mem_app in Hin. now apply orb_false_iff in Hin as [_ Hin].
  - apply in_map_iff in Hin as (e & <- & He).
    apply parse_entities_loop_origin in He as (_ & line & Hline & _ & _ & _ & ->).
    apply entity_text_no_LF. now apply Hlines.
  - rewrite parse_references_shape in Hin.
    rewrite parse_imports_References in Hin.
    cbn [References set_Raw BAST_new app Spec.reference_list] in Hin.
    repeat (destruct Hin as [<- | Hin]); try reflexivity;
      try (now rewrite !mem_app, format_int_no_LF);
      destruct Hin.
Qed.

End DebugFile.

(** X15.  The debug file is its five sections in order, each a header line
    followed by one line per entry: details, raw lines, imports, entities
    in their serialized form, references. *)
Theorem write_debug_sections (b : BAST) :
  write_debug b =
  Spec.unlines
    (";;details" :: Details b
     ++ ";;raw" :: Raw b
     ++ ";;imports" :: Imports b
     ++ ";;entities" :: map Spec.entity_text (Entities b)
     ++ ";;references" :: References b)%list.
Proof. apply write_debug_unlines. Qed.

(** X16.  When the input path holds no line break, the text that
    [compile] sends to the stream of the debug file splits back into
    exactly the lines of its sections, nothing running over two lines: it
    has 14 lines more than there are raw lines, imports and entities
    together.  (Whether a file results depends on the stream, which the
    source does not test.) *)
Theorem debug_file_lines (fileloc : string) (start_time : Z)
    (content : string) :
  has_LF fileloc = false ->
  split_lines (write_debug (build_BAST fileloc start_time content))
  = debug_lines (build_BAST fileloc start_time content)
  /\ List.length
       (split_lines (write_debug (build_BAST fileloc start_time content)))
     = 14 + List.length (Raw (build_BAST fileloc start_time content))
       + List.length (Imports (build_BAST fileloc start_time content))
       + List.length (Entities (build_BAST fileloc start_time content)).
Proof.
  intro Hpath.
  assert (Hsplit : split_lines
                     (write_debug (build_BAST fileloc start_time content))
                   = debug_lines (build_BAST fileloc start_time content)).
  { rewrite write_debug_unlines. apply split_lines_of_unlines.
    intros l Hl. exact (debug_lines_no_LF _ _ _ l Hpath Hl). }
  split; [exact Hsplit|]. rewrite Hsplit. unfold debug_lines.
  cbn [List.length]. repeat (rewrite List.length_app; cbn [List.length]).
  rewrite length_map.
  unfold build_BAST at 1 5. cbn [Details References set_Details set_Entities].
  rewrite parse_references_shape, parse_imports_References.
  cbn [References set_Raw BAST_new app Spec.reference_list List.length].
  lia.
Qed.

Lemma debug_file_lines_witness :
  List.length
    (split_lines
       (write_debug (build_BAST "a.btsp" 0 ("#start" ++ nl ++ "x??1"))))
  = 17.
Proof.
  refine (eq_trans
            (proj2 (debug_file_lines "a.btsp" 0 ("#start" ++ nl ++ "x??1")
                      eq_refl)) _).
  reflexivity.
Defined.

(* ------------------------------------------------------------------ *)
(** ** Command line *)

(** X17.  For [build] with one path that exists and ends in [.btsp],
    [main] runs [compile] on it with the output name [main] and returns 0
    whatever [compile] returned: if the file cannot be opened, the
    diagnostic of [compile] is printed and the exit code is still 0. *)
Theorem main_build_ignores_compile_result (h : Host) (prog path : string) :
  path_exists h path = Some true ->
  ends_with ".btsp" path = true ->
  main h [prog; "build"; path]
  = Some (mkOutcome 0 (std_out (compile (host_world h) path "main"))
                      (artifacts (compile (host_world h) path "main")))
  /\ (fs_read (host_world h) path = None ->
      exit_code (compile (host_world h) path "main") = 1%Z
      /\ main h [prog; "build"; path]
         = Some (mkOutcome 0 ("b26c=1" ++ nl ++ "file-opened: 0" ++ nl) [])).
Proof.
  intros Hex Hsuffix.
  assert (Hmain : main h [prog; "build"; path]
                  = Some (mkOutcome 0
                            (std_out (compile (host_world h) path "main"))
                            (artifacts (compile (host_world h) path "main")))).
  { unfold main. cbn [List.length Nat.ltb Nat.leb nth_error Nat.eqb].
    cbn [String.eqb Ascii.eqb Bool.eqb]. rewrite Hex, Hsuffix. reflexivity. }
  split; [exact Hmain|]. intro Hread. rewrite Hmain.
  unfold compile. rewrite Hread. now split.
Qed.

Lemma main_build_ignores_compile_result_witness :
  main (mkHost (single_file_world "a.btsp" "" 0)
               (fun _ => Some true) (fun p => Some p))
       ["b26c"; "build"; "locked.btsp"]
  = Some (mkOutcome 0 ("b26c=1" ++ nl ++ "file-opened: 0" ++ nl) []).
Proof.
  refine (proj2 (proj2 (main_build_ignores_compile_result
            (mkHost (single_file_world "a.btsp" "" 0)
                    (fun _ => Some true) (fun p => Some p))
            "b26c" "locked.btsp" eq_refl eq_refl) eq_refl)).
Defined.

(** X18.  When [main] returns, its exit code is 0 or 1, and it is 1 in
    two cases only: fewer than two arguments, or [build] with a path and
    a failed check (an argument count other than 3, a path that does not
    exist, a path that does not end in [.btsp]).  Any other subcommand is
    accepted in silence with exit code 0. *)
Theorem main_exit_code (h : Host) (argv : list string) (r : Outcome) :
  main h argv = Some r ->
  (exit_code r = 0%Z \/ exit_code r = 1%Z)
  /\ (exit_code r = 1%Z <->
      List.length argv < 2
      \/ (nth_error argv 1 = Some "build"
          /\ exists p,
               nth_error argv 2 = Some p
               /\ (List.length argv <> 3
                   \/ path_exists h p = Some false
                   \/ ends_with ".btsp" p = false)))
  /\ (2 <= List.length argv -> nth_error argv 1 <> Some "build" ->
      r = mkOutcome 0 "" []).
Proof.
  unfold main. intro H.
  destruct (List.length argv <? 2)%nat eqn:Eargc.
  { apply Nat.ltb_lt in Eargc. injection H as <-. cbn [exit_code].
    repeat split; auto; lia. }
  apply Nat.ltb_ge in Eargc.
  destruct (nth_error argv 1) as [argv1|] eqn:E1; [|discriminate].
  destruct (argv1 =? "build") eqn:Ebuild.
  2:{ apply String.eqb_neq in Ebuild. injection H as <-. cbn [exit_code].
      repeat split; auto.
      - discriminate.
      - intros [Hlt | (Hb & _)]; [lia | congruence]. }
  apply String.eqb_eq in Ebuild; subst argv1.
  destruct (nth_error argv 2) as [argv2|] eqn:E2; [|discriminate].
  destruct (path_exists h argv2) as [valid|] eqn:Eex; [|discriminate].
  destruct (negb (List.length argv =? 3)%nat || negb valid
            || negb (ends_with ".btsp" argv2)) eqn:Echeck.
  - destruct (absolute h argv2); [|discriminate]. injection H as <-.
    cbn [exit_code]. repeat split; auto; [|congruence].
    intros _. right. split; [reflexivity|]. exists argv2.
    split; [reflexivity|].
    apply orb_true_iff in Echeck as [Echeck | Echeck];
      [apply orb_true_iff in Echeck as [Echeck | Echeck]|];
      apply negb_true_iff in Echeck.
    + left. now apply Nat.eqb_neq.
    + right. left. now subst valid.
    + right. right. exact Echeck.
  - injection H as <-. cbn [exit_code]. repeat split; auto;
      [discriminate | | congruence].
    apply orb_false_iff in Echeck as [Echeck Hsuf].
    apply orb_false_iff in Echeck as [Hargc Hvalid].
    apply negb_false_iff in Hsuf, Hargc, Hvalid. apply Nat.eqb_eq in Hargc.
    intros [Hlt | (_ & p & Hp & Hfail)]; [lia|].
    assert (p = argv2) by congruence; subst p.
    destruct Hfail as [Hf | [Hf | Hf]]; [lia | | congruence].
    rewrite Eex in Hf. subst valid. discriminate.
Qed.

Lemma main_exit_code_witness :
  (exit_code (mkOutcome 0 "" []) = 0%Z \/ exit_code (mkOutcome 0 "" []) = 1%Z)
  /\ (exit_code (mkOutcome 0 "" []) = 1%Z <->
      List.length ["b26c"; "run"; "a.btsp"] < 2
      \/ (nth_error ["b26c"; "run"; "a.btsp"] 1 = Some "build"
          /\ exists p,
               nth_error ["b26c"; "run"; "a.btsp"] 2 = Some p
               /\ (List.length ["b26c"; "run"; "a.btsp"] <> 3
                   \/ path_exists
                        (mkHost (single_file_world "a.btsp" "" 0)
                                (fun _ => Some true) (fun p => Some p)) p
                      = Some false
                   \/ ends_with ".btsp" p = false)))
  /\ (2 <= List.length ["b26c"; "run"; "a.btsp"] ->
      nth_error ["b26c"; "run"; "a.btsp"] 1 <> Some "build" ->
      mkOutcome 0 "" [] = mkOutcome 0 "" []).
Proof.
  exact (main_exit_code
           (mkHost (single_file_world "a.btsp" "" 0)
                   (fun _ => Some true) (fun p => Some p))
           ["b26c"; "run"; "a.btsp"] (mkOutcome 0 "" []) eq_refl).
Defined.

(** X19.  When [main] returns, it has written nothing or exactly one file,
    named [main.btspdebug] whatever the input path is; it writes only with
    exit code 0 and nothing printed, and with exit code 1 it writes
    nothing and prints a diagnostic. *)
Theorem main_artifacts (h : Host) (argv : list string) (r : Outcome) :
  main h argv = Some r ->
  (artifacts r = []
   \/ exists text,
        artifacts r = [("main.btspdebug", text)]
        /\ exit_code r = 0%Z /\ std_out r = "" /\ List.length argv = 3)
  /\ (exit_code r = 1%Z -> artifacts r = [] /\ std_out r <> "").
Proof.
  unfold main. intro H.
  destruct (List.length argv <? 2)%nat.
  { injection H as <-. cbn. split; [now left|]. split; [reflexivity|].
    discriminate. }
  destruct (nth_error argv 1) as [argv1|]; [|discriminate].
  destruct (argv1 =? "build").
  2:{ injection H as <-. cbn. split; [now left | discriminate]. }
  destruct (nth_error argv 2) as [argv2|]; [|discriminate].
  destruct (path_exists h argv2) as [valid|]; [|discriminate].
  destruct (negb (List.length argv =? 3)%nat || negb valid
            || negb (ends_with ".btsp" argv2)) eqn:Echeck.
  - destruct (absolute h argv2); [|discriminate]. injection H as <-.
    cbn. split; [now left|]. split; [reflexivity | discriminate].
  - injection H as <-. cbn [exit_code std_out artifacts].
    apply orb_false_iff in Echeck as [Echeck _].
    apply orb_false_iff in Echeck as [Hargc _].
    apply negb_false_iff, Nat.eqb_eq in Hargc.
    split; [|discriminate].
    unfold compile. destruct (fs_read (host_world h) argv2);
      cbn [artifacts std_out]; [right | now left].
    eexists. repeat split. exact Hargc.
Qed.

Lemma main_artifacts_witness :
  (artifacts (mkOutcome 0 "" []) = []
   \/ exists text,
        artifacts (mkOutcome 0 "" []) = [("main.btspdebug", text)]
        /\ exit_code (mkOutcome 0 "" []) = 0%Z
        /\ std_out (mkOutcome 0 "" []) = ""
        /\ List.length ["b26c"; "run"] = 3)
  /\ (exit_code (mkOutcome 0 "" []) = 1%Z ->
      artifacts (mkOutcome 0 "" []) = [] /\ std_out (mkOutcome 0 "" []) <> "").
Proof.
  exact (main_artifacts
           (mkHost (single_file_world "a.btsp" "" 0)
                   (fun _ => Some true) (fun p => Some p))
           ["b26c"; "run"] (mkOutcome 0 "" []) eq_refl).
Defined.

(** X20.  [main] fails to return in these cases only, all under the
    subcommand [build]: no path follows, so that the path is built from
    the null pointer that ends [argv]; or the existence test of
    [argv[2]] throws; or a check fails and making [argv[2]] absolute, for
    the diagnostic, throws.  So in a run where the file system calls on
    [argv[2]] do not throw, [main] returns unless the arguments are the
    program name and [build] alone. *)
Theorem main_returns (h : Host) (argv : list string) :
  (main h argv = None <->
   nth_error argv 1 = Some "build"
   /\ (List.length argv = 2
       \/ exists p,
            nth_error argv 2 = Some p
            /\ (path_exists h p = None
                \/ (absolute h p = None
                    /\ (List.length argv <> 3
                        \/ path_exists h p = Some false
                        \/ ends_with ".btsp" p = false)))))
  /\ ((forall p,
         nth_error argv 2 = Some p ->
         path_exists h p <> None /\ absolute h p <> None) ->
      (main h argv = None <-> exists prog, argv = [prog; "build"])).
Proof.
  assert (Hexact :
    main h argv = None <->
    nth_error argv 1 = Some "build"
    /\ (List.length argv = 2
        \/ exists p,
             nth_error argv 2 = Some p
             /\ (path_exists h p = None
                 \/ (absolute h p = None
                     /\ (List.length argv <> 3
                         \/ path_exists h p = Some false
                         \/ ends_with ".btsp" p = false))))).
  { unfold main. destruct argv as [|a0 [|a1 [|a2 rest]]].
    - split; [discriminate | intros [H _]; discriminate].
    - split; [discriminate | intros [H _]; discriminate].
    - cbn [List.length Nat.ltb Nat.leb nth_error].
      destruct (a1 =? "build") eqn:E.
      + apply String.eqb_eq in E; subst a1. split; [|reflexivity].
        intros _. split; [reflexivity | now left].
      + apply String.eqb_neq in E. split; [discriminate|].
        intros [H _]. congruence.
    - cbn [List.length Nat.ltb Nat.leb nth_error].
      destruct (a1 =? "build") eqn:E.
      2:{ apply String.eqb_neq in E. split; [discriminate|].
          intros [H _]. congruence. }
      apply String.eqb_eq in E; subst a1.
      destruct (path_exists h a2) as [valid|] eqn:Eex.
      2:{ split; [|reflexivity]. intros _. split; [reflexivity|].
          right. exists a2. split; [reflexivity | now left]. }
      destruct (negb (S (S (S (List.length rest))) =? 3)%nat || negb valid
                || negb (ends_with ".btsp" a2)) eqn:Echeck.
      + destruct (absolute h a2) eqn:Eabs.
        * split; [discriminate|].
          intros (_ & [Hlen | (p & [= <-] & [Hn | (Hn & _)])]);
            [discriminate | congruence | congruence].
        * split; [|reflexivity]. intros _. split; [reflexivity|].
          right. exists a2. split; [reflexivity|]. right.
          split; [exact Eabs|].
          apply orb_true_iff in Echeck as [Echeck | Echeck];
            [apply orb_true_iff in Echeck as [Echeck | Echeck]|];
            apply negb_true_iff in Echeck.
          -- left. now apply Nat.eqb_neq.
          -- right. left. now subst valid.
          -- right. right. exact Echeck.
      + split; [discriminate|].
        apply orb_false_iff in Echeck as [Echeck Hsuf].
        apply orb_false_iff in Echeck as [Hargc Hvalid].
        apply negb_false_iff in Hsuf, Hargc, Hvalid.
        apply Nat.eqb_eq in Hargc. subst valid.
        intros (_ & [Hlen | (p & [= <-] & [Hn | (_ & Hfail)])]);
          [discriminate | congruence|].
        destruct Hfail as [Hf | [Hf | Hf]]; congruence. }
  split; [exact Hexact|].
  intro Hcalls. rewrite Hexact. split.
  - intros (Hbuild & [Hlen | (p & Hp & Hthrow)]).
    + destruct argv as [|a0 [|a1 [|a2 rest]]]; try discriminate.
      injection Hbuild as ->. now exists a0.
    + destruct (Hcalls p Hp) as [Hex Habs].
      destruct Hthrow as [Hn | (Hn & _)]; contradiction.
  - intros [prog ->]. split; [reflexivity | now left].
Qed.

Lemma main_returns_witness :
  main (mkHost (single_file_world "a.btsp" "" 0)
               (fun _ => Some true) (fun _ => None))
       ["b26c"; "build"] = None.
Proof.
  apply (proj2 (main_returns
           (mkHost (single_file_world "a.btsp" "" 0)
                   (fun _ => Some true) (fun _ => None))
           ["b26c"; "build"])).
  - intros p H. discriminate.
  - now exists "b26c".
Defined.

(* ------------------------------------------------------------------ *)
(** ** Program block extractor: lines that do not count *)

Lemma parse_entities_loop_closed (skipped rest : list string)
    (acc : list Entity) :
  ~ In "#start" skipped ->
  parse_entities_loop (skipped ++ rest) false acc
  = parse_entities_loop rest false acc.
Proof.
  induction skipped as [|line skipped IH]; intro H; [reflexivity|].
  assert (Hline : (line =? "#start") = false).
  { apply String.eqb_neq. intros ->. apply H. now left. }
  cbn [app parse_entities_loop]. rewrite Hline. cbn [andb].
  destruct (line =? "#end"); apply IH; intro; apply H; now right.
Qed.

(** X21.  Outside a block only a [#start] line matters, and an empty line
    matters nowhere: the lines between an [#end] and the next [#start],
    and those before the first [#start], can be taken out without
    changing the entities, and so can any empty line. *)
Theorem parse_entities_structured_skips (seen skipped rest : list string) :
  ~ In "#start" skipped ->
  parse_entities_structured (seen ++ "#end" :: skipped ++ rest)
  = parse_entities_structured (seen ++ "#end" :: rest)
  /\ parse_entities_structured (skipped ++ rest)
     = parse_entities_structured rest
  /\ parse_entities_structured (seen ++ "" :: rest)
     = parse_entities_structured (seen ++ rest).
Proof.
  intro H. unfold parse_entities_structured. repeat split.
  - rewrite !parse_entities_loop_app. cbn [parse_entities_loop String.eqb
      Ascii.eqb Bool.eqb]. now apply parse_entities_loop_closed.
  - now apply parse_entities_loop_closed.
  - rewrite !parse_entities_loop_app. cbn [parse_entities_loop String.eqb
      Str.empty negb]. now rewrite andb_false_r.
Qed.

Lemma parse_entities_structured_skips_witness :
  parse_entities_structured
    (["#start"; "a"] ++ "#end" :: ["note"; "#end"; "more"] ++ ["#start"; "b"])
  = parse_entities_structured (["#start"; "a"] ++ "#end" :: ["#start"; "b"]).
Proof.
  refine (proj1 (parse_entities_structured_skips
                   ["#start"; "a"] ["note"; "#end"; "more"] ["#start"; "b"] _)).
  intros [H | [H | [H | []]]]; discriminate.
Defined.
